(** * Onboard switch discovery: the crawl engine and the VLAN port-table filter

    A shallow embedding of

    - [topologyDiscovery/StartDiscovery.py]: [NetworkDiscoveryManager], its
      worklist loop [_discover_switches_iterative], [discover_network] and
      [get_topology_stats];
    - [plugins/filter/hirschmann/vlan.py]: [parse_vlan_ports_table].

    Python sets and dicts are stdpp's [gset] and [gmap]; the mutable state of
    the manager and of the loop is threaded through a small state monad in
    which a raised exception keeps the mutations made before it, as in
    Python. *)

From Stdlib Require Import Ascii String.
From stdpp Require Import base option list sets gmap strings pretty.


(** ** Data model ([data_model.py]) *)

Module NeighborInfo.
(** Modelled from the spec: [data_model.NeighborInfo] is not part of the
    sources at hand.  The engine reads only [ip]; the spec adds
    "descriptive link metadata (e.g., local/remote port)". *)
Record t := mk { ip : string; metadata : list (string * string) }.
End NeighborInfo.

Module SwitchInfo.
(** Modelled from the spec: [data_model.SwitchInfo] is not part of the
    sources at hand.  The engine reads [ip], [type] and [neighbors]. *)
Record t := mk {
  ip : string;
  type : option string;
  neighbors : list NeighborInfo.t
}.
End SwitchInfo.

Module NetworkTopology.
(** Modelled from the spec: [data_model.NetworkTopology] is not part of
    the sources at hand: "mapping from Address to DeviceRecord (keys
    unique)" plus one [discovery_timestamp]. *)
Record t := mk {
  switches : gmap string SwitchInfo.t;
  discovery_timestamp : option nat
}.

(** [NetworkTopology()] *)
Definition new : t := mk ∅ None.

(** Modelled from the spec: [add_switch] is "insert-or-replace a
    DeviceRecord by address". *)
Definition add_switch (switch : SwitchInfo.t) (T : t) : t :=
  mk (<[SwitchInfo.ip switch := switch]> (switches T)) (discovery_timestamp T).

(** Modelled from the spec: [get_switch] is "lookup a DeviceRecord by
    address (returns absent if not discovered)". *)
Definition get_switch (ip : string) (T : t) : option SwitchInfo.t :=
  switches T !! ip.

Definition set_timestamp (now : nat) (T : t) : t :=
  mk (switches T) (Some now).
End NetworkTopology.

(** ** Exceptions and collaborator results

    Only subclasses of [Exception] are modelled: they are what the
    [except Exception] clause of the loop handles. *)

Inductive exn :=
| TypeError
| KeyError (key : string)
| CollaboratorError (msg : string).

Inductive result (A : Type) :=
| Normal (a : A)
| Raised (e : exn).
Arguments Normal {A} a.
Arguments Raised {A} e.

(** ** The collaborators: [SwitchDetector] and the four discovery classes *)

(** The detection session handed back by the probe; [disconnect()] may raise. *)
Record SSHClient := { disconnect : result unit }.

(** An instance of a discovery class; [get_switch_info()] may raise. *)
Record DiscoveryInstance := { get_switch_info : result SwitchInfo.t }.

(** [cls(host=..., username=..., password=...)] *)
Definition DiscoveryClass : Type :=
  string → string → string → result DiscoveryInstance.

Record World := {
  (** [SwitchDetector.detect_switch_type(ip)], returning
      [(vendor, ssh_client, credentials)] *)
  detect_switch_type :
    string → result (option string * option SSHClient * option (gmap string string));
  HirschmannDiscovery : DiscoveryClass;
  LantechDiscovery : DiscoveryClass;
  KontronDiscovery : DiscoveryClass;
  NomadDiscovery : DiscoveryClass
}.

(** [self.discovery_classes], built in [__init__]. *)
Definition discovery_classes (w : World) : gmap string DiscoveryClass :=
  <["hirschmann" := HirschmannDiscovery w]>
  (<["lantech" := LantechDiscovery w]>
  (<["kontron" := KontronDiscovery w]>
  (<["nomad" := NomadDiscovery w]> ∅))).

(** Python truthiness of an optional string ([None] and [""] are falsy) and
    of an optional dict ([None] and [{}] are falsy). *)
Definition truthy_str (v : option string) : bool :=
  match v with
  | Some s => negb (String.eqb s "")
  | None => false
  end.

Definition truthy_dict (d : option (gmap string string)) : bool :=
  match d with
  | Some m => negb (bool_decide (m = ∅))
  | None => false
  end.

(** [d.get(k)] on the class registry: a key that is [None] is never present. *)
Definition dict_get {V} (d : gmap string V) (k : option string) : option V :=
  match k with
  | Some s => d !! s
  | None => None
  end.

(** [credentials[k]] *)
Definition subscript (d : option (gmap string string)) (k : string) : result string :=
  match d with
  | Some m => match m !! k with
              | Some v => Normal v
              | None => Raised (KeyError k)
              end
  | None => Raised TypeError
  end.

(** ** State of the manager and of one run of the loop *)

Module NetworkDiscoveryManager.
Record t := mk {
  discovered_switches : gset string;
  failed_switches : gset string;
  topology : NetworkTopology.t
}.

(** [__init__] *)
Definition init : t := mk ∅ ∅ NetworkTopology.new.
End NetworkDiscoveryManager.

(** The manager together with the local variables of
    [_discover_switches_iterative].  The local [failed_switches] of the
    source is declared but never written: failures go to
    [self.failed_switches]. *)
Record Frame := mkFrame {
  self : NetworkDiscoveryManager.t;
  seen_switches : gset string;
  local_failed_switches : gset string;
  candidate_switches : gset string;
  counter : nat
}.

Definition discovered (f : Frame) : gset string :=
  NetworkDiscoveryManager.discovered_switches (self f).
Definition failed (f : Frame) : gset string :=
  NetworkDiscoveryManager.failed_switches (self f).
Definition topology (f : Frame) : NetworkTopology.t :=
  NetworkDiscoveryManager.topology (self f).
Definition switches (f : Frame) : gmap string SwitchInfo.t :=
  NetworkTopology.switches (topology f).

(** ** A state monad with exceptions *)

Definition M (A : Type) : Type := Frame → result A * Frame.

Global Instance M_ret : MRet M := λ A a f, (Normal a, f).
Global Instance M_bind : MBind M := λ A B k m f,
  match m f with
  | (Normal a, f') => k a f'
  | (Raised e, f') => (Raised e, f')
  end.

Definition get : M Frame := λ f, (Normal f, f).
Definition modify (g : Frame → Frame) : M unit := λ f, (Normal tt, g f).
Definition call {A} (r : result A) : M A := λ f, (r, f).
Definition raise {A} (e : exn) : M A := λ f, (Raised e, f).

(** [try: body  except Exception as e: handler] *)
Definition try_except (body : M unit) (handler : exn → M unit) : M unit := λ f,
  match body f with
  | (Normal _, f') => (Normal tt, f')
  | (Raised e, f') => handler e f'
  end.

(** [for x in xs: body] *)
Fixpoint for_each {A} (xs : list A) (body : A → M unit) : M unit :=
  match xs with
  | [] => mret tt
  | x :: xs' => body x ;; for_each xs' body
  end.

(** ** The mutations the loop performs *)

Definition pop_candidate (ip : string) (f : Frame) : Frame :=
  mkFrame (self f) (seen_switches f) (local_failed_switches f)
          (candidate_switches f ∖ {[ip]}) (counter f).

Definition seen_add (ip : string) (f : Frame) : Frame :=
  mkFrame (self f) (seen_switches f ∪ {[ip]}) (local_failed_switches f)
          (candidate_switches f) (counter f).

Definition candidate_add (ip : string) (f : Frame) : Frame :=
  mkFrame (self f) (seen_switches f) (local_failed_switches f)
          (candidate_switches f ∪ {[ip]}) (counter f).

Definition counter_incr (f : Frame) : Frame :=
  mkFrame (self f) (seen_switches f) (local_failed_switches f)
          (candidate_switches f) (S (counter f)).

Definition self_failed_add (ip : string) (f : Frame) : Frame :=
  mkFrame (NetworkDiscoveryManager.mk (discovered f) (failed f ∪ {[ip]}) (topology f))
          (seen_switches f) (local_failed_switches f)
          (candidate_switches f) (counter f).

Definition self_discovered_add (ip : string) (f : Frame) : Frame :=
  mkFrame (NetworkDiscoveryManager.mk (discovered f ∪ {[ip]}) (failed f) (topology f))
          (seen_switches f) (local_failed_switches f)
          (candidate_switches f) (counter f).

Definition self_topology_add_switch (switch : SwitchInfo.t) (f : Frame) : Frame :=
  mkFrame (NetworkDiscoveryManager.mk (discovered f) (failed f)
             (NetworkTopology.add_switch switch (topology f)))
          (seen_switches f) (local_failed_switches f)
          (candidate_switches f) (counter f).

(** ** [_discover_switches_iterative]: the body of the [while] loop *)

(** Lines 113-115, the body of [for neighbor in switch_info.neighbors]. *)
Definition enqueue_unseen (neighbor : NeighborInfo.t) : M unit :=
  let neighbor_ip := NeighborInfo.ip neighbor in
  f ← get;
  if decide (neighbor_ip ∈ seen_switches f) then mret tt
  else modify (candidate_add neighbor_ip).

(** Lines 88-115, the [try] block for the address just popped. *)
Definition try_block (w : World) (current_ip : string) : M unit :=
  '(vendor, ssh_client, credentials) ← call (detect_switch_type w current_ip);
  match ssh_client with
  | Some client => call (disconnect client)
  | None => mret tt
  end ;;
  is_ok ← (if truthy_dict credentials then mret true
           else modify (self_failed_add current_ip) ;; mret false);
  is_ok ← (if truthy_str vendor then mret is_ok
           else modify (self_failed_add current_ip) ;; mret false);
  if is_ok : bool then
    let discovery_class := dict_get (discovery_classes w) vendor in
    username ← call (subscript credentials "username");
    password ← call (subscript credentials "password");
    switch_instance ← match discovery_class with
                      | Some cls => call (cls current_ip username password)
                      | None => raise TypeError
                      end;
    switch_info ← call (get_switch_info switch_instance);
    modify (self_topology_add_switch switch_info) ;;
    modify (self_discovered_add (SwitchInfo.ip switch_info)) ;;
    for_each (SwitchInfo.neighbors switch_info) enqueue_unseen
  else mret tt.

(** Lines 83-120, one pass of the loop, [current_ip] being the address that
    [candidate_switches.pop()] returned. *)
Definition iteration (w : World) (current_ip : string) : M unit :=
  modify (pop_candidate current_ip) ;;
  modify (seen_add current_ip) ;;
  try_except (try_block w current_ip)
             (λ e, modify (self_failed_add current_ip)) ;;
  modify counter_incr.

(** Lines 76-79: the locals at loop entry. *)
Definition enter (e : NetworkDiscoveryManager.t) (seed_ip : string) : Frame :=
  mkFrame e ∅ ∅ (∅ ∪ {[seed_ip]}) 0.

(** [set.pop()] removes an arbitrary element.  A trace of the loop lists the
    addresses in the order they were popped; every choice of an element of
    the candidate set is allowed. *)
Inductive crawl (w : World) : Frame → list string → Frame → Prop :=
| crawl_stop f : crawl w f [] f
| crawl_visit f current_ip f1 l f2 :
    current_ip ∈ candidate_switches f →
    iteration w current_ip f = (Normal tt, f1) →
    crawl w f1 l f2 →
    crawl w f (current_ip :: l) f2.

(** The loop has exited: [while candidate_switches:] found the set empty. *)
Definition finished (f : Frame) : Prop := candidate_switches f = ∅.

(** A deterministic reading of [set.pop()], to run the loop. *)
Record PopPolicy := {
  pop :> gset string → option string;
  pop_elem : ∀ c a, pop c = Some a → a ∈ c;
  pop_empty : ∀ c, pop c = None → c = ∅
}.

(** The whole [while] loop under a pop policy; [None] when the fuel runs
    out, otherwise how the loop ended and in which state. *)
Fixpoint while_candidates (w : World) (p : PopPolicy) (fuel : nat) (f : Frame)
  : option (result unit * Frame) :=
  match p (candidate_switches f) with
  | None => Some (Normal tt, f)
  | Some current_ip =>
      match fuel with
      | O => None
      | S fuel' =>
          match iteration w current_ip f with
          | (Normal _, f1) => while_candidates w p fuel' f1
          | (Raised e, f1) => Some (Raised e, f1)
          end
      end
  end.

(** [_discover_switches_iterative(seed_ip)] *)
Definition _discover_switches_iterative (w : World) (p : PopPolicy) (fuel : nat)
    (e : NetworkDiscoveryManager.t) (seed_ip : string)
  : option (result unit * Frame) :=
  while_candidates w p fuel (enter e seed_ip).

(** [discover_network(seed_ip)]: stamp the topology with [now], run the
    loop, log the summary (no effect on the state) and return
    [self.topology].  The second component is the manager afterwards. *)
Definition stamp (now : nat) (e : NetworkDiscoveryManager.t) : NetworkDiscoveryManager.t :=
  NetworkDiscoveryManager.mk
    (NetworkDiscoveryManager.discovered_switches e)
    (NetworkDiscoveryManager.failed_switches e)
    (NetworkTopology.set_timestamp now (NetworkDiscoveryManager.topology e)).

Definition discover_network (w : World) (p : PopPolicy) (fuel : nat) (now : nat)
    (e : NetworkDiscoveryManager.t) (seed_ip : string)
  : option (result NetworkTopology.t * NetworkDiscoveryManager.t) :=
  match _discover_switches_iterative w p fuel (stamp now e) seed_ip with
  | None => None
  | Some (Normal _, f) => Some (Normal (topology f), self f)
  | Some (Raised ex, f) => Some (Raised ex, self f)
  end.

(** ** [get_topology_stats] *)

Record Stats := mkStats {
  total_switches : nat;
  switch_types : gmap string nat;
  total_neighbors : nat;
  stats_discovery_timestamp : option nat;
  discovered_ips : list string;
  failed_ips : list string
}.

(** [switch.type or 'unknown'] *)
Definition type_or_unknown (switch : SwitchInfo.t) : string :=
  if truthy_str (SwitchInfo.type switch)
  then default "unknown" (SwitchInfo.type switch)
  else "unknown".

Arguments type_or_unknown : simpl never.

(** Lines 193-195, the body of the loop over [self.topology.switches.values()]. *)
Definition count_switch (stats : Stats) (switch : SwitchInfo.t) : Stats :=
  let switch_type := type_or_unknown switch in
  mkStats (total_switches stats)
          (<[switch_type := default 0 (switch_types stats !! switch_type) + 1]>
             (switch_types stats))
          (total_neighbors stats + length (SwitchInfo.neighbors switch))
          (stats_discovery_timestamp stats)
          (discovered_ips stats)
          (failed_ips stats).

Definition dict_values {V} (d : gmap string V) : list V := (map_to_list d).*2.

Definition get_topology_stats (e : NetworkDiscoveryManager.t) : Stats :=
  let T := NetworkDiscoveryManager.topology e in
  let stats :=
    mkStats (size (NetworkTopology.switches T))
            ∅
            0
            (NetworkTopology.discovery_timestamp T)
            (elements (NetworkDiscoveryManager.discovered_switches e))
            (elements (NetworkDiscoveryManager.failed_switches e)) in
  foldl count_switch stats (dict_values (NetworkTopology.switches T)).

(** ** [vlan.py]: [parse_vlan_ports_table]

    A Python [str] is a [string] whose characters are read as code points
    below 256. *)

Module Vlan.

(** [c.isspace()] *)
Definition isspace (c : ascii) : bool :=
  let n := nat_of_ascii c in
  ((9 <=? n) && (n <=? 13) || (28 <=? n) && (n <=? 32)
   || (n =? 133) || (n =? 160))%nat.

(** [c.isdigit()] *)
Definition isdigit (c : ascii) : bool :=
  let n := nat_of_ascii c in
  ((48 <=? n) && (n <=? 57) || (n =? 178) || (n =? 179) || (n =? 185))%nat.

(** [s.lstrip()] *)
Fixpoint lstrip (s : string) : string :=
  match s with
  | String c s' => if isspace c then lstrip s' else s
  | EmptyString => EmptyString
  end.

(** [s.rstrip()]: a character goes when it is white and nothing is left
    behind it. *)
Fixpoint rstrip (s : string) : string :=
  match s with
  | String c s' =>
      match rstrip s' with
      | EmptyString => if isspace c then EmptyString else String c EmptyString
      | r => String c r
      end
  | EmptyString => EmptyString
  end.

(** [s.strip()] *)
Definition strip (s : string) : string := rstrip (lstrip s).

(** [s.startswith(p)] *)
Fixpoint startswith (s p : string) : bool :=
  match p, s with
  | EmptyString, _ => true
  | String a p', String b s' => if Ascii.eqb a b then startswith s' p' else false
  | String _ _, EmptyString => false
  end.

(** [s.find(c)] for a one-character needle: the first index, or [-1]. *)
Fixpoint find (s : string) (c : ascii) : Z :=
  match s with
  | String b s' => if Ascii.eqb b c then 0%Z
                   else let r := find s' c in
                        if (r =? -1)%Z then (-1)%Z else (r + 1)%Z
  | EmptyString => (-1)%Z
  end.

(** [s[i:]] for [0 <= i] *)
Fixpoint slice_from (i : nat) (s : string) : string :=
  match i, s with
  | O, _ => s
  | S i', String _ s' => slice_from i' s'
  | S _, EmptyString => EmptyString
  end.

(** [s.split()]: the maximal runs of non-white characters.  [cur] is the
    run being read, if any. *)
Fixpoint split_go (s : string) (cur : option string) : list string :=
  match s with
  | String c s' =>
      if isspace c
      then match cur with
           | Some word => word :: split_go s' None
           | None => split_go s' None
           end
      else split_go s' (Some (default "" cur +:+ String c ""))
  | EmptyString =>
      match cur with
      | Some word => [word]
      | None => []
      end
  end.

Definition split (s : string) : list string := split_go s None.

Definition chars (s : string) : list ascii := list_ascii_of_string s.

Inductive outcome (A : Type) :=
| Return (a : A)
| AnsibleFilterError (msg : string).
Arguments Return {A} a.
Arguments AnsibleFilterError {A} msg.

Record Membership := mkMembership {
  ports_to_vlans : gmap string (list string);
  vlans_to_ports : gmap string (list string)
}.

(** Lines 78-82: the first line whose stripped form starts with
    ["Interface"], or [None]. *)
Fixpoint find_port_line (stdout_lines : list string) : option string :=
  match stdout_lines with
  | line :: rest =>
      if startswith (strip line) "Interface" then Some line
      else find_port_line rest
  | [] => None
  end.

(** Lines 93-95: the 1-based positions, as strings, of the digits of the
    header; [i] is the 0-based index of the head of [cs]. *)
Fixpoint port_numbers_from (i : nat) (cs : list ascii) : list string :=
  match cs with
  | c :: cs' =>
      ((if isdigit c then [pretty (i + 1)] else []) ++ port_numbers_from (S i) cs')%list
  | [] => []
  end.

(** Lines 111-117: walk one membership word against the port numbers; the
    walk stops ([break]) where the port numbers end. *)
Fixpoint mark_ports (vlan_id : string) (membership : list ascii)
    (port_numbers : list string) (m : Membership) : Membership :=
  match membership, port_numbers with
  | status :: membership', port :: port_numbers' =>
      let m' :=
        if bool_decide (status = "T"%char ∨ status = "U"%char)
        then mkMembership
               (alter (λ vlans, (vlans ++ [vlan_id])%list) port (ports_to_vlans m))
               (alter (λ ports, (ports ++ [port])%list) vlan_id (vlans_to_ports m))
        else m in
      mark_ports vlan_id membership' port_numbers' m'
  | _, _ => m
  end.

(** Lines 101-117: one line of the table. *)
Definition parse_line (port_numbers : list string) (m : Membership) (line : string)
  : Membership :=
  match strip line with
  | EmptyString => m
  | String c _ =>
      if negb (isdigit c) then m
      else
        let parts := split line in
        if (length parts <? 2)%nat then m
        else
          let vlan_id := default "" (head parts) in
          let membership := default "" (last parts) in
          let m1 := mkMembership (ports_to_vlans m)
                                 (<[vlan_id := []]> (vlans_to_ports m)) in
          mark_ports vlan_id (chars membership) port_numbers m1
  end.

Definition parse_vlan_ports_table (stdout_lines : list string) : outcome Membership :=
  match find_port_line stdout_lines with
  | None => AnsibleFilterError "Could not find port header in output"
  | Some EmptyString => AnsibleFilterError "Could not find port header in output"
  | Some port_line =>
      let port_index := find port_line ":"%char in
      if (port_index =? -1)%Z then AnsibleFilterError "Malformed port header line"
      else
        let port_digits := strip (slice_from (Z.to_nat (port_index + 1)) port_line) in
        let port_numbers := port_numbers_from 0 (chars port_digits) in
        let ports_to_vlans0 : gmap string (list string) :=
          list_to_map ((λ p, (p, [])) <$> port_numbers) in
        Return (foldl (parse_line port_numbers)
                      (mkMembership ports_to_vlans0 ∅) stdout_lines)
  end.

(** *** [parse_vlans]

    The three regular expressions are read as Python's [re] matches them
    on a [str]: [\s] is [isspace], [\d] a decimal digit, [^] and [$] the
    line boundaries of [re.MULTILINE] (after, and before, a newline). *)

Definition newline : ascii := "010"%char.

(** [\d] *)
Definition isdecimal (c : ascii) : bool :=
  let n := nat_of_ascii c in ((48 <=? n) && (n <=? 57))%nat.

(** The class [[\nA-Z0-9a-z\s-]] *)
Definition in_block_class (c : ascii) : bool :=
  let n := nat_of_ascii c in
  ((n =? 10) || (65 <=? n) && (n <=? 90) || (48 <=? n) && (n <=? 57)
   || (97 <=? n) && (n <=? 122) || isspace c || (n =? 45))%nat.

(** ["\n".join(lines)] *)
Fixpoint join_lines (lines : list string) : string :=
  match lines with
  | [] => ""
  | [line] => line
  | line :: rest => line +:+ String newline (join_lines rest)
  end.

(** [\s*$] after a match: nothing but whitespace up to the next newline
    or the end of the text. *)
Fixpoint blank_to_eol (s : string) : bool :=
  match s with
  | EmptyString => true
  | String c s' =>
      if Ascii.eqb c newline then true
      else if isspace c then blank_to_eol s' else false
  end.

(** [\s*exit\s*$] at the head of [s]: the greedy [\s*] takes the whole run
    of whitespace, since the literal that follows starts with a letter. *)
Definition exit_here (s : string) : bool :=
  let s1 := lstrip s in
  startswith s1 "exit" && blank_to_eol (slice_from 4 s1).

(** The lazy group [([\nA-Z0-9a-z\s-]*?)] followed by [(?:^\s*exit\s*$)]:
    the shortest run of class characters that ends at a line start where
    the exit line matches.  [prev] is the character before [s]. *)
Fixpoint block_to_exit (prev : ascii) (s : string) : option string :=
  if Ascii.eqb prev newline && exit_here s then Some ""
  else match s with
       | String c s' =>
           if in_block_class c then String c <$> block_to_exit c s' else None
       | EmptyString => None
       end.

(** [^vlan database] and the rest of the pattern at the head of [s], when
    [s] is at a line start. *)
Definition block_here (prev : option ascii) (s : string) : option string :=
  if bool_decide (prev = None ∨ prev = Some newline)
     && startswith s "vlan database"
  then block_to_exit "e"%char (slice_from 13 s)
  else None.

(** [re.search(regex, text, re.DOTALL | re.MULTILINE)], group 1 of the
    leftmost match.  [prev] is the character before [s], if any. *)
Fixpoint search_block (prev : option ascii) (s : string) : option string :=
  match block_here prev s with
  | Some block => Some block
  | None =>
      match s with
      | String c s' => search_block (Some c) s'
      | EmptyString => None
      end
  end.

(** The longest prefix of decimal digits: what a greedy [\d+] takes. *)
Fixpoint digits_prefix (s : string) : string :=
  match s with
  | String c s' => if isdecimal c then String c (digits_prefix s') else ""
  | EmptyString => ""
  end.

(** The longest prefix without a newline: what a greedy [[^\n]+] takes. *)
Fixpoint line_prefix (s : string) : string :=
  match s with
  | String c s' => if Ascii.eqb c newline then "" else String c (line_prefix s')
  | EmptyString => ""
  end.

(** [re.findall(r"vlan add (\d+)", s)]: the matches left to right, none
    overlapping.  [skip] characters at the head of [s] belong to the match
    before. *)
Fixpoint findall_vlan_add (skip : nat) (s : string) : list string :=
  match s with
  | EmptyString => []
  | String _ s' =>
      match skip with
      | S k => findall_vlan_add k s'
      | O =>
          if startswith s "vlan add " then
            match digits_prefix (slice_from 9 s) with
            | EmptyString => findall_vlan_add 0 s'
            | d => d :: findall_vlan_add (8 + String.length d) s'
            end
          else findall_vlan_add 0 s'
      end
  end.

(** Where [\s+] gives characters back because the whitespace run [ws] ends
    the text: the last position, not the first, that holds no newline, with
    the text from there on.  [i] is the index of the head of [ws]. *)
Fixpoint last_start (i : nat) (ws : string) : option (nat * string) :=
  match ws with
  | EmptyString => None
  | String c ws' =>
      match last_start (S i) ws' with
      | Some r => Some r
      | None =>
          if (1 <=? i)%nat && negb (Ascii.eqb c newline) then Some (i, ws)
          else None
      end
  end.

(** [name (\d+)\s+([^\n]+)] at the head of [s]: the two groups and the
    length of the match. *)
Definition match_name (s : string) : option (string * string * nat) :=
  if startswith s "name " then
    match digits_prefix (slice_from 5 s) with
    | EmptyString => None
    | d =>
        let after := slice_from (5 + String.length d) s in
        let rest := lstrip after in
        let r := String.length after - String.length rest in
        if (r =? 0)%nat then None
        else match rest with
             | String _ _ =>
                 let g := line_prefix rest in
                 Some (d, g, 5 + String.length d + r + String.length g)
             | EmptyString =>
                 match last_start 0 after with
                 | Some (k, from) =>
                     let g := line_prefix from in
                     Some (d, g, 5 + String.length d + k + String.length g)
                 | None => None
                 end
             end
    end
  else None.

(** [re.findall(r"name (\d+)\s+([^\n]+)", s)] *)
Fixpoint findall_name (skip : nat) (s : string) : list (string * string) :=
  match s with
  | EmptyString => []
  | String _ s' =>
      match skip with
      | S k => findall_name k s'
      | O =>
          match match_name s with
          | Some (d, g, len) => (d, g) :: findall_name (len - 1) s'
          | None => findall_name 0 s'
          end
      end
  end.

(** [dict(pairs)]: a later pair replaces an earlier one with the same key. *)
Definition dict_of_pairs (pairs : list (string * string)) : gmap string string :=
  foldl (λ m kv, <[kv.1 := kv.2]> m) ∅ pairs.

(** One element of the result: [{"vlan_id": ..., "name": ...}]. *)
Record VlanEntry := mkVlanEntry { vlan_id : string; name : option string }.

(** [(names.get(vlan) or "").strip() or None] *)
Definition name_of (names : gmap string string) (vlan : string) : option string :=
  match strip (default "" (names !! vlan)) with
  | EmptyString => None
  | n => Some n
  end.

Definition parse_vlans (stdout_lines : list string) : list VlanEntry :=
  let config_text := join_lines stdout_lines in
  match search_block None config_text with
  | None => []
  | Some block =>
      let vlans := findall_vlan_add 0 block in
      let names := dict_of_pairs (findall_name 0 block) in
      (λ vlan, mkVlanEntry vlan (name_of names vlan)) <$> vlans
  end.

End Vlan.

(** ** What one visit amounts to *)

(** The record the collaborators deliver for an address, when every step of
    the [try] block goes through; [None] when the probe reports no vendor or
    no credentials, or when anything raises. *)
Definition attempt (w : World) (current_ip : string) : option SwitchInfo.t :=
  match detect_switch_type w current_ip with
  | Normal (vendor, ssh_client, credentials) =>
      match from_option disconnect (Normal tt) ssh_client with
      | Normal _ =>
          if truthy_dict credentials && truthy_str vendor then
            match subscript credentials "username",
                  subscript credentials "password",
                  dict_get (discovery_classes w) vendor with
            | Normal username, Normal password, Some cls =>
                match cls current_ip username password with
                | Normal switch_instance =>
                    match get_switch_info switch_instance with
                    | Normal switch_info => Some switch_info
                    | Raised _ => None
                    end
                | Raised _ => None
                end
            | _, _, _ => None
            end
          else None
      | Raised _ => None
      end
  | Raised _ => None
  end.

Definition neighbor_ips (switch_info : SwitchInfo.t) : list string :=
  NeighborInfo.ip <$> SwitchInfo.neighbors switch_info.

(** The frame after a visit of [a] that produced the record [r]. *)
Definition visited_ok (a : string) (r : SwitchInfo.t) (f : Frame) : Frame :=
  mkFrame
    (NetworkDiscoveryManager.mk
       (discovered f ∪ {[SwitchInfo.ip r]})
       (failed f)
       (NetworkTopology.add_switch r (topology f)))
    (seen_switches f ∪ {[a]})
    (local_failed_switches f)
    (candidate_switches f ∖ {[a]}
       ∪ list_to_set (neighbor_ips r) ∖ (seen_switches f ∪ {[a]}))
    (S (counter f)).

(** The frame after a visit of [a] that failed. *)
Definition visited_failed (a : string) (f : Frame) : Frame :=
  mkFrame
    (NetworkDiscoveryManager.mk (discovered f) (failed f ∪ {[a]}) (topology f))
    (seen_switches f ∪ {[a]})
    (local_failed_switches f)
    (candidate_switches f ∖ {[a]})
    (S (counter f)).

Definition visited (w : World) (a : string) (f : Frame) : Frame :=
  match attempt w a with
  | Some r => visited_ok a r f
  | None => visited_failed a f
  end.

(** The frame after the visits [l], in that order. *)
Definition visited_all (w : World) (l : list string) (f : Frame) : Frame :=
  foldl (λ f a, visited w a f) f l.

(** [l] is a trace from [f]: each address is a candidate when its turn
    comes. *)
Fixpoint trace_ok (w : World) (l : list string) (f : Frame) : bool :=
  match l with
  | [] => true
  | a :: l' => bool_decide (a ∈ candidate_switches f) && trace_ok w l' (visited w a f)
  end.

(** ** Properties of frames, worlds and runs *)

(** No address awaiting a visit has been visited before. *)
Definition worklist_ok (f : Frame) : Prop :=
  candidate_switches f ## seen_switches f.

(** A successful visit of [a] reports neighbours in [U] only. *)
Definition stays_within (w : World) (U : gset string) (a : string) : Prop :=
  match attempt w a with
  | Some r => list_to_set (neighbor_ips r) ⊆ U
  | None => True
  end.

(** A finite neighbour environment: a set of addresses that no successful
    visit leads out of. *)
Definition closed_under (w : World) (U : gset string) : Prop :=
  set_Forall (stays_within w U) U.

Definition within (U : gset string) (f : Frame) : Prop :=
  candidate_switches f ∪ seen_switches f ⊆ U.

(** The record delivered for [a], if any, carries the address [a]. *)
Definition self_addressed (w : World) (a : string) : Prop :=
  match attempt w a with
  | Some r => SwitchInfo.ip r = a
  | None => True
  end.

Global Instance stays_within_dec w U a : Decision (stays_within w U a).
Proof. unfold stays_within. destruct (attempt w a); apply _. Defined.

Global Instance closed_under_dec w U : Decision (closed_under w U).
Proof. unfold closed_under. apply _. Defined.

Global Instance self_addressed_dec w a : Decision (self_addressed w a).
Proof. unfold self_addressed. destruct (attempt w a); apply _. Defined.

Global Instance worklist_ok_dec f : Decision (worklist_ok f).
Proof. unfold worklist_ok. apply _. Defined.

Global Instance finished_dec f : Decision (finished f).
Proof. unfold finished. apply _. Defined.

(** The addresses the crawl can get to: the seed, and the neighbours
    reported by addresses it gets to and discovers. *)
Inductive reach (w : World) (seed_ip : string) : string → Prop :=
| reach_seed : reach w seed_ip seed_ip
| reach_neighbor a r n :
    reach w seed_ip a → attempt w a = Some r → n ∈ neighbor_ips r →
    reach w seed_ip n.

(** The bookkeeping of a run started on the manager [e0] from [seed_ip],
    in terms of the seen set. *)
Record explored (w : World) (e0 : NetworkDiscoveryManager.t) (seed_ip : string)
    (f : Frame) : Prop := {
  ex_reach : ∀ a, a ∈ candidate_switches f ∪ seen_switches f → reach w seed_ip a;
  ex_seed : seed_ip ∈ candidate_switches f ∪ seen_switches f;
  ex_closed : ∀ a r n,
    a ∈ seen_switches f → attempt w a = Some r → n ∈ neighbor_ips r →
    n ∈ candidate_switches f ∪ seen_switches f;
  ex_discovered : ∀ x,
    x ∈ discovered f ↔
    x ∈ NetworkDiscoveryManager.discovered_switches e0
    ∨ ∃ a r, a ∈ seen_switches f ∧ attempt w a = Some r ∧ SwitchInfo.ip r = x;
  ex_failed : ∀ x,
    x ∈ failed f ↔
    x ∈ NetworkDiscoveryManager.failed_switches e0
    ∨ (x ∈ seen_switches f ∧ attempt w x = None);
  ex_timestamp :
    NetworkTopology.discovery_timestamp (topology f)
    = NetworkTopology.discovery_timestamp (NetworkDiscoveryManager.topology e0)
}.


(** How many of the records [l] fall in the histogram bucket [t]. *)
Definition count_type (t : string) (l : list SwitchInfo.t) : nat :=
  length (filter (λ r, type_or_unknown r = t) l).

(** The neighbour edges of the records [l], counted per record. *)
Definition edge_count (l : list SwitchInfo.t) : nat :=
  sum_list_with (λ r, length (SwitchInfo.neighbors r)) l.

(** The loop of [get_topology_stats] after the records [done]: what each
    field holds. *)
Record counted (init : Stats) (done : list SwitchInfo.t) (stats : Stats) : Prop := {
  counted_total : total_switches stats = total_switches init;
  counted_types : ∀ t,
    switch_types stats !! t
    = if decide (count_type t done = 0) then None else Some (count_type t done);
  counted_neighbors : total_neighbors stats = edge_count done;
  counted_timestamp : stats_discovery_timestamp stats = stats_discovery_timestamp init;
  counted_discovered : discovered_ips stats = discovered_ips init;
  counted_failed : failed_ips stats = failed_ips init
}.

(** ** Mock networks, for running the engine *)

Inductive MockNode :=
| Silent
| Refusing (vendor : string)
| Answering (vendor : string) (reported_ip : string) (neighbors : list string).

Definition mock_credentials : gmap string string :=
  <["username" := "admin"]> (<["password" := "secret"]> ∅).

(** A discovery class over a mock network: the session to an [Answering]
    node delivers its record under the vendor tag [tag], any other session
    fails. *)
Definition mock_class (tag : string) (net : gmap string MockNode) : DiscoveryClass :=
  λ host username password,
    Normal {| get_switch_info :=
      match default Silent (net !! host) with
      | Answering _ ip nbrs =>
          Normal (SwitchInfo.mk ip (Some tag) ((λ n, NeighborInfo.mk n []) <$> nbrs))
      | _ => Raised (CollaboratorError "connection refused")
      end |}.

(** The probe finds neither vendor nor credentials on a [Silent] node (or on
    an address that is not on the network), and both on the others. *)
Definition mock_world (net : gmap string MockNode) : World := {|
  detect_switch_type := λ ip,
    match default Silent (net !! ip) with
    | Silent => Normal (None, None, None)
    | Refusing v | Answering v _ _ =>
        Normal (Some v, Some {| disconnect := Normal tt |}, Some mock_credentials)
    end;
  HirschmannDiscovery := mock_class "hirschmann" net;
  LantechDiscovery := mock_class "lantech" net;
  KontronDiscovery := mock_class "kontron" net;
  NomadDiscovery := mock_class "nomad" net
|}.

(** Nothing answers. *)
Definition net_dark : gmap string MockNode := ∅.

(** One switch, reached at 10.0.0.1, that reports its management address
    192.168.1.31 as its own. *)
Definition net_alias : gmap string MockNode :=
  {[ "10.0.0.1" := Answering "hirschmann" "192.168.1.31" [] ]}.

(** A switch with two neighbours that have no further neighbours. *)
Definition net_star : gmap string MockNode :=
  <["10.0.0.1" := Answering "hirschmann" "10.0.0.1" ["10.0.0.2"; "10.0.0.3"]]>
  (<["10.0.0.2" := Answering "lantech" "10.0.0.2" []]>
  {[ "10.0.0.3" := Answering "nomad" "10.0.0.3" [] ]}).

(** Two switches that list each other. *)
Definition net_cycle : gmap string MockNode :=
  <["10.0.0.1" := Answering "hirschmann" "10.0.0.1" ["10.0.0.2"]]>
  {[ "10.0.0.2" := Answering "lantech" "10.0.0.2" ["10.0.0.1"] ]}.

(** A switch whose only neighbour refuses the discovery session. *)
Definition net_dead_end : gmap string MockNode :=
  <["10.0.0.1" := Answering "hirschmann" "10.0.0.1" ["10.0.0.2"]]>
  {[ "10.0.0.2" := Refusing "kontron" ]}.

(** Two switches that list each other, the first of which reports its
    management address 192.168.1.31 as its own. *)
Definition net_alias_cycle : gmap string MockNode :=
  <["10.0.0.1" := Answering "hirschmann" "192.168.1.31" ["10.0.0.2"]]>
  {[ "10.0.0.2" := Answering "lantech" "10.0.0.2" ["10.0.0.1"] ]}.

(** Two switches that list each other, and a third switch that no one
    lists and that lists no one. *)
Definition net_cycle_apart : gmap string MockNode :=
  <["10.0.0.1" := Answering "hirschmann" "10.0.0.1" ["10.0.0.2"]]>
  (<["10.0.0.2" := Answering "lantech" "10.0.0.2" ["10.0.0.1"]]>
  {[ "10.0.0.3" := Answering "nomad" "10.0.0.3" [] ]}).

(** A switch that reports its management address 192.168.1.31 as its own,
    and whose only neighbour refuses the discovery session. *)
Definition net_alias_dead_end : gmap string MockNode :=
  <["10.0.0.1" := Answering "hirschmann" "192.168.1.31" ["10.0.0.2"]]>
  {[ "10.0.0.2" := Refusing "kontron" ]}.

(** A switch of a vendor without a discovery class. *)
Definition net_foreign : gmap string MockNode :=
  {[ "10.0.0.1" := Refusing "cisco" ]}.


(** Pop the first, or the last, element in the order [elements] lists them. *)
Definition pop_first : PopPolicy :=
  {| pop := λ c, head (elements c);
     pop_elem := λ c a (H : head (elements c) = Some a),
       proj1 (elem_of_elements c a) (head_Some_elem_of _ _ H);
     pop_empty := λ c (H : head (elements c) = None),
       leibniz_equiv _ _ (proj1 (elements_empty_iff c) (proj1 (head_None _) H)) |}.

Definition pop_last : PopPolicy :=
  {| pop := λ c, last (elements c);
     pop_elem := λ c a (H : last (elements c) = Some a),
       proj1 (elem_of_elements c a) (last_Some_elem_of _ _ H);
     pop_empty := λ c (H : last (elements c) = None),
       leibniz_equiv _ _ (proj1 (elements_empty_iff c) (proj1 (last_None _) H)) |}.

(** The table of the docstring of [parse_vlan_ports_table]. *)
Definition docstring_table : list string :=
  [ "        VLAN Port membership";
    "            Slot: 1";
    "VLAN ID  Port: 1234567890123456789012345678";
    "-------  ----- ----------------------------";
    "        1        UUUUUUUUUUUUUUUUUUUUUUUUUUUU";
    "        2        -T-T-----------------------T";
    "        8        -T-T-----UUUU----------U---T";
    "        9        -T-T----U------------------T";
    "        10        ----------------------------";
    "    200        -T-TT----------------------T";
    "    210        -T--TT----------------------";
    "    218        TTTTTTTTTTTTTTTTTTTTTTTTTTTT";
    "    219        -T-TTT---------------------T";
    "    220        -TTTT----------------------T";
    "";
    "Abbreviations:";
    "- Not Member";
    "T Tagged";
    "F Forbidden";
    "U Untagged" ].

(** ** Notions for the further properties *)

(** The sum of the counts of a vendor histogram. *)
Definition histogram_total (h : gmap string nat) : nat :=
  map_fold (λ _ n acc, n + acc) 0 h.

(** The port names a header line gives (lines 89-95 of [vlan.py]). *)
Definition header_ports (port_line : string) : list string :=
  Vlan.port_numbers_from 0
    (Vlan.chars (Vlan.strip
       (Vlan.slice_from (Z.to_nat (Vlan.find port_line ":"%char + 1)) port_line))).

(** The dict the membership lines start from (lines 97-98). *)
Definition empty_membership (ports : list string) : Vlan.Membership :=
  Vlan.mkMembership (list_to_map ((λ p, (p, [])) <$> ports)) ∅.

(** The VLAN id and the membership word of a line that the second loop
    reads; [None] for a line it skips (lines 102-109). *)
Definition vlan_line (line : string) : option (string * string) :=
  match Vlan.strip line with
  | EmptyString => None
  | String c _ =>
      if negb (Vlan.isdigit c) then None
      else
        let parts := Vlan.split line in
        if (length parts <? 2)%nat then None
        else Some (default "" (head parts), default "" (last parts))
  end.

(** The ports a membership word marks: those whose column holds [T] or
    [U], column [i] standing for the [i]-th port. *)
Fixpoint marked (membership : list ascii) (ports : list string) : list string :=
  match membership, ports with
  | status :: membership', port :: ports' =>
      if bool_decide (status = "T"%char ∨ status = "U"%char)
      then port :: marked membership' ports'
      else marked membership' ports'
  | _, _ => []
  end.

(** The VLANs, in the order of the lines, whose line marks the port [p]. *)
Definition vlans_marking (ports : list string) (p : string) (lines : list string)
  : list string :=
  omap (λ line,
          match vlan_line line with
          | Some (v, mem) =>
              if decide (p ∈ marked (Vlan.chars mem) ports) then Some v else None
          | None => None
          end) lines.

(** The membership words of the lines for the VLAN [v], in order, and the
    last of them. *)
Definition memberships (v : string) (lines : list string) : list string :=
  omap (λ line,
          match vlan_line line with
          | Some (v', mem) => if decide (v' = v) then Some mem else None
          | None => None
          end) lines.

Definition last_membership (v : string) (lines : list string) : option string :=
  last (memberships v lines).

(** The VLAN ids of the lines the second loop reads, in order. *)
Definition vlan_ids (lines : list string) : list string :=
  omap (λ line, fst <$> vlan_line line) lines.

(** The text of a header line after its first colon, stripped. *)
Definition header_text (port_line : string) : list ascii :=
  Vlan.chars (Vlan.strip
    (Vlan.slice_from (Z.to_nat (Vlan.find port_line ":"%char + 1)) port_line)).

(** A table with an ["Interface"] header, four ports and two VLANs. *)
Definition sample_table : list string :=
  [ "VLAN Port membership";
    "Interface  Port: 1234";
    "-------  ----- ----";
    "      1        UU-T";
    "     20        -TFU";
    "";
    "Abbreviations:";
    "- Not Member" ].

(** The last character of [c] followed by [s]. *)
Fixpoint last_char (c : ascii) (s : string) : ascii :=
  match s with
  | EmptyString => c
  | String d s' => last_char d s'
  end.

(** The lines, each followed by a newline. *)
Fixpoint lines_text (lines : list string) : string :=
  match lines with
  | [] => ""
  | line :: rest => line +:+ String Vlan.newline (lines_text rest)
  end.

(** A character of the block class that is not a newline. *)
Definition block_char (c : ascii) : Prop :=
  Vlan.in_block_class c = true ∧ c ≠ Vlan.newline.

(** The entries [parse_vlans] makes of a block. *)
Definition entries_of_block (block : string) : list Vlan.VlanEntry :=
  (λ vlan, Vlan.mkVlanEntry vlan
             (Vlan.name_of (Vlan.dict_of_pairs (Vlan.findall_name 0 block)) vlan))
    <$> Vlan.findall_vlan_add 0 block.

(** The configuration of the docstring of [parse_vlans], in three parts:
    before the ["vlan database"] line, between it and the ["exit"] line,
    and after. *)
Definition docstring_before : list string := ["cli serial-timeout 0"].

Definition docstring_body : list string :=
  [ "vlan add 2"; "vlan add 8";
    "name 1 Management"; "name 2 NWM"; "name 8 RIS";
    "no ip arp-inspection bind-check 2";
    "no ip arp-inspection bind-check 8";
    "no ip arp-inspection bind-check 9" ].

Definition docstring_after : list string :=
  [ "network parms 192.168.1.31 255.255.255.0 192.168.1.1";
    "name 123 something" ].

(** A line holds no newline character. *)
Definition one_line (line : string) : Prop :=
  Forall (λ c, c ≠ Vlan.newline) (Vlan.chars line).

(** ** Basic facts about the monad and the frame *)

Lemma Frame_eq f g :
  discovered f = discovered g →
  failed f = failed g →
  topology f = topology g →
  seen_switches f = seen_switches g →
  local_failed_switches f = local_failed_switches g →
  candidate_switches f = candidate_switches g →
  counter f = counter g →
  f = g.
Proof.
  destruct f as [[]], g as [[]]; unfold discovered, failed, topology; simpl.
  by intros -> -> -> -> -> -> ->.
Qed.

Ltac run_M :=
  unfold mbind, M_bind, mret, M_ret, call, modify, raise, get, try_except; simpl.

Ltac same_frame := f_equal; apply Frame_eq; simpl; try done; set_solver.

Lemma enqueue_unseen_eq nb f :
  enqueue_unseen nb f
  = (Normal tt,
     if decide (NeighborInfo.ip nb ∈ seen_switches f) then f
     else candidate_add (NeighborInfo.ip nb) f).
Proof. unfold enqueue_unseen. run_M. by case_decide. Qed.

Lemma for_each_enqueue (nbrs : list NeighborInfo.t) f :
  for_each nbrs enqueue_unseen f
  = (Normal tt,
     mkFrame (self f) (seen_switches f) (local_failed_switches f)
       (candidate_switches f ∪ list_to_set (NeighborInfo.ip <$> nbrs) ∖ seen_switches f)
       (counter f)).
Proof.
  revert f. induction nbrs as [|nb nbrs IH]; intros f; simpl.
  - run_M. same_frame.
  - unfold mbind, M_bind. rewrite enqueue_unseen_eq.
    destruct (decide (NeighborInfo.ip nb ∈ seen_switches f)) as [Hin|Hin];
      rewrite IH; same_frame.
Qed.

(** The [try] block, case by case: it ends normally with the frame of a
    successful visit, or ends normally having recorded the failure itself
    (no vendor or no credentials), or raises with the frame untouched. *)
Lemma try_block_cases w a f :
  match attempt w a with
  | Some r =>
      try_block w a f
      = (Normal tt,
         mkFrame
           (NetworkDiscoveryManager.mk (discovered f ∪ {[SwitchInfo.ip r]}) (failed f)
              (NetworkTopology.add_switch r (topology f)))
           (seen_switches f) (local_failed_switches f)
           (candidate_switches f ∪ list_to_set (neighbor_ips r) ∖ seen_switches f)
           (counter f))
  | None =>
      try_block w a f = (Normal tt, self_failed_add a f)
      ∨ ∃ e, try_block w a f = (Raised e, f)
  end.
Proof.
  unfold attempt, try_block. run_M.
  destruct (detect_switch_type w a) as [[[vendor ssh] creds]|e]; simpl; [|eauto].
  destruct ssh as [[[[]|e]]|]; simpl; [|eauto|].
  all: destruct (truthy_dict creds) eqn:Hc, (truthy_str vendor) eqn:Hv; simpl;
    try (left; same_frame).
  all: destruct (subscript creds "username") as [u|]; simpl; [|eauto].
  all: destruct (subscript creds "password") as [pw|]; simpl; [|eauto].
  all: destruct (dict_get (discovery_classes w) vendor) as [cls|]; simpl; [|eauto].
  all: destruct (cls a u pw) as [inst|]; simpl; [|eauto].
  all: destruct (get_switch_info inst) as [r|]; simpl; [|eauto].
  all: rewrite for_each_enqueue; simpl; unfold neighbor_ips; same_frame.
Qed.

(** One pass of the loop never raises, and its effect is [visited]. *)
Lemma iteration_visited w a f : iteration w a f = (Normal tt, visited w a f).
Proof.
  pose proof (try_block_cases w a (seen_add a (pop_candidate a f))) as H.
  unfold iteration, visited. run_M.
  destruct (attempt w a) as [r|].
  - rewrite H. unfold visited_ok. same_frame.
  - destruct H as [H|[e H]]; rewrite H; unfold visited_failed; same_frame.
Qed.

(** ** The worklist discipline *)

Section Worklist.
Context (w : World).

(** Induction over a trace, one visit at a time. *)
Lemma crawl_visited_ind (P : Frame → Prop) :
  (∀ f a, a ∈ candidate_switches f → P f → P (visited w a f)) →
  ∀ f l f', crawl w f l f' → P f → P f'.
Proof.
  intros Hstep f l f' Hc. induction Hc as [|f a f1 l f2 Ha Hit _ IH]; [done|].
  intros HP. apply IH. rewrite iteration_visited in Hit.
  injection Hit as <-. by apply Hstep.
Qed.

Lemma crawl_cons_inv f a l f' :
  crawl w f (a :: l) f' →
  a ∈ candidate_switches f ∧ crawl w (visited w a f) l f'.
Proof.
  inversion 1 as [|? ? f1 ? ? Ha Hit Hc]; subst.
  rewrite iteration_visited in Hit. injection Hit as <-. done.
Qed.

Lemma crawl_nil_inv f f' : crawl w f [] f' → f' = f.
Proof. by inversion 1. Qed.

Lemma crawl_visit' f a l f' :
  a ∈ candidate_switches f → crawl w (visited w a f) l f' →
  crawl w f (a :: l) f'.
Proof. intros. eapply crawl_visit; eauto using iteration_visited. Qed.

(** A trace ends in the frame its visits produce. *)
Lemma crawl_visited_all f l f' : crawl w f l f' → f' = visited_all w l f.
Proof.
  induction 1 as [|f a f1 l f2 Ha Hit _ IH]; [done|].
  rewrite iteration_visited in Hit. injection Hit as <-. done.
Qed.

Lemma visited_seen a f :
  seen_switches (visited w a f) = seen_switches f ∪ {[a]}.
Proof. unfold visited. by destruct (attempt w a). Qed.

Lemma visited_candidate a f :
  candidate_switches (visited w a f)
  = candidate_switches f ∖ {[a]}
    ∪ match attempt w a with
      | Some r => list_to_set (neighbor_ips r) ∖ (seen_switches f ∪ {[a]})
      | None => ∅
      end.
Proof. unfold visited. destruct (attempt w a); simpl; set_solver. Qed.

Lemma worklist_ok_enter e seed_ip : worklist_ok (enter e seed_ip).
Proof. unfold worklist_ok, enter; simpl. set_solver. Qed.

Lemma worklist_ok_visited a f : worklist_ok f → worklist_ok (visited w a f).
Proof.
  unfold worklist_ok. rewrite visited_seen, visited_candidate.
  destruct (attempt w a); set_solver.
Qed.

(** The addresses of a trace are pairwise distinct, were unseen at its
    start, and are exactly what the trace adds to the seen set. *)
Lemma crawl_trace f l f' :
  crawl w f l f' → worklist_ok f →
  NoDup l
  ∧ (∀ a, a ∈ l → a ∉ seen_switches f)
  ∧ seen_switches f' = seen_switches f ∪ list_to_set l
  ∧ worklist_ok f'.
Proof.
  induction 1 as [|f a f1 l f2 Ha Hit _ IH]; intros Hok.
  - split; [constructor|]. split; [set_solver|]. split; [set_solver|done].
  - rewrite iteration_visited in Hit. injection Hit as <-.
    destruct IH as (Hnd & Hfresh & Hseen & Hok'); [by apply worklist_ok_visited|].
    rewrite visited_seen in Hfresh, Hseen.
    split; [|split; [|split]]; [| | |done].
    + constructor; [|done]. intros Hin. apply Hfresh in Hin. set_solver.
    + intros b [->|Hb]%elem_of_cons; [unfold worklist_ok in Hok; set_solver|].
      apply Hfresh in Hb. set_solver.
    + rewrite Hseen. set_solver.
Qed.

Lemma closed_under_elim U a r n :
  closed_under w U → a ∈ U → attempt w a = Some r → n ∈ neighbor_ips r → n ∈ U.
Proof.
  intros HU Ha Hr Hn. specialize (HU a Ha). unfold stays_within in HU.
  rewrite Hr in HU. set_solver.
Qed.

Lemma within_visited U a f :
  closed_under w U → a ∈ candidate_switches f → within U f →
  within U (visited w a f).
Proof.
  unfold within. intros HU Ha Hf. rewrite visited_seen, visited_candidate.
  destruct (attempt w a) as [r|] eqn:Hr; [|set_solver].
  assert (∀ n, n ∈ neighbor_ips r → n ∈ U)
    by (intros; eapply closed_under_elim; eauto; set_solver).
  set_solver.
Qed.

Lemma crawl_within U f l f' :
  closed_under w U → crawl w f l f' → within U f → within U f'.
Proof.
  intros HU Hc. revert f l f' Hc.
  apply (crawl_visited_ind (within U)). eauto using within_visited.
Qed.

(** A trace cannot be longer than the part of [U] not seen yet. *)
Lemma crawl_length U f l f' :
  closed_under w U → crawl w f l f' → worklist_ok f → within U f →
  length l ≤ size (U ∖ seen_switches f).
Proof.
  intros HU Hc Hok Hin.
  destruct (crawl_trace _ _ _ Hc Hok) as (Hnd & Hfresh & Hseen & _).
  pose proof (crawl_within _ _ _ _ HU Hc Hin) as Hin'.
  rewrite <- (size_list_to_set (C:=gset string) l) by done.
  apply subseteq_size. unfold within in Hin'. rewrite Hseen in Hin'.
  intros a Ha. apply elem_of_difference. split; [set_solver|].
  apply Hfresh. set_solver.
Qed.

(** With fuel for every address of [U] still unseen, the loop runs to
    completion under any pop policy, ends normally, and what it did is a
    trace. *)
Lemma while_candidates_total (p : PopPolicy) U fuel f :
  closed_under w U → worklist_ok f → within U f →
  size (U ∖ seen_switches f) ≤ fuel →
  ∃ l f', while_candidates w p fuel f = Some (Normal tt, f')
          ∧ crawl w f l f' ∧ finished f'.
Proof.
  intros HU. revert f. induction fuel as [|fuel IH]; intros f Hok Hin Hsz.
  - simpl. destruct (p (candidate_switches f)) as [a|] eqn:Hp.
    + exfalso. apply pop_elem in Hp.
      assert (a ∈ U ∖ seen_switches f) as Ha
        by (unfold worklist_ok, within in *; set_solver).
      assert (U ∖ seen_switches f ≡ ∅) as Hemp by (apply size_empty_iff; lia).
      set_solver.
    + exists [], f. split; [done|]. split; [constructor|]. by apply pop_empty in Hp.
  - simpl. destruct (p (candidate_switches f)) as [a|] eqn:Hp.
    + apply pop_elem in Hp. rewrite iteration_visited.
      destruct (IH (visited w a f)) as (l & f' & Hrun & Hc & Hfin).
      * by apply worklist_ok_visited.
      * by apply within_visited.
      * rewrite visited_seen.
        assert (U ∖ (seen_switches f ∪ {[a]}) ⊂ U ∖ seen_switches f) as Hlt.
        { unfold worklist_ok, within in *. set_solver. }
        apply subset_size in Hlt. lia.
      * exists (a :: l), f'. split; [done|]. split; [|done].
        by apply crawl_visit'.
    + exists [], f. split; [done|]. split; [constructor|]. by apply pop_empty in Hp.
Qed.

(** The loop never ends by an exception, whatever the fuel. *)
Lemma while_candidates_normal (p : PopPolicy) fuel f r f' :
  while_candidates w p fuel f = Some (r, f') → r = Normal tt.
Proof.
  revert f. induction fuel as [|fuel IH]; intros f; simpl.
  - destruct (p (candidate_switches f)); [done|]. by intros [= <- _].
  - destruct (p (candidate_switches f)) as [a|]; [|by intros [= <- _]].
    rewrite iteration_visited. apply IH.
Qed.

Lemma within_enter U e seed_ip : seed_ip ∈ U → within U (enter e seed_ip).
Proof. unfold within, enter; simpl. set_solver. Qed.

(** ** What a run computes *)

Section Run.
Context (e0 : NetworkDiscoveryManager.t) (seed_ip : string).

Lemma explored_enter : explored w e0 seed_ip (enter e0 seed_ip).
Proof.
  split; unfold enter, discovered, failed, topology; simpl.
  - intros a Ha. assert (a = seed_ip) as -> by set_solver. constructor.
  - set_solver.
  - set_solver.
  - intros x. split; [by left|]. intros [?|(a & r & Ha & _)]; set_solver.
  - intros x. split; [by left|]. intros [?|[Ha _]]; set_solver.
  - done.
Qed.

Lemma explored_visited a f :
  a ∈ candidate_switches f → explored w e0 seed_ip f →
  explored w e0 seed_ip (visited w a f).
Proof.
  intros Ha [Hre Hse Hcl Hd Hf Ht].
  split; rewrite ?visited_seen, ?visited_candidate.
  - intros b Hb. destruct (attempt w a) as [r|] eqn:Hr.
    + destruct (decide (b ∈ candidate_switches f ∪ seen_switches f)); [by apply Hre|].
      apply (reach_neighbor _ _ a r); [apply Hre| |]; set_solver.
    + apply Hre. set_solver.
  - destruct (decide (seed_ip = a)); set_solver.
  - intros b r n Hb Hr Hn.
    destruct (decide (n ∈ seen_switches f ∪ {[a]})); [set_solver|].
    destruct (decide (b = a)) as [->|].
    + rewrite Hr. set_solver.
    + assert (n ∈ candidate_switches f ∪ seen_switches f)
        by (eapply Hcl; eauto; set_solver).
      set_solver.
  - intros x. unfold visited. destruct (attempt w a) as [r|] eqn:Hr;
      unfold discovered; simpl; fold (discovered f).
    + rewrite elem_of_union, Hd, elem_of_singleton. split.
      * intros [[?|(b & r' & ? & ? & ?)]| ->]; [by left| |].
        -- right. exists b, r'. set_solver.
        -- right. exists a, r. set_solver.
      * intros [?|(b & r' & Hb & Hr' & Hx)]; [by left; left|].
        destruct (decide (b = a)) as [->|].
        -- right. congruence.
        -- left. right. exists b, r'. set_solver.
    + rewrite Hd. split.
      * intros [?|(b & r' & ? & ? & ?)]; [by left|].
        right. exists b, r'. set_solver.
      * intros [?|(b & r' & Hb & Hr' & Hx)]; [by left|].
        destruct (decide (b = a)) as [->|]; [congruence|].
        right. exists b, r'. set_solver.
  - intros x. unfold visited. destruct (attempt w a) as [r|] eqn:Hr;
      unfold failed; simpl; fold (failed f).
    + rewrite Hf. split.
      * intros [?|[? ?]]; [by left|]. right. set_solver.
      * intros [?|[Hx Hnone]]; [by left|].
        destruct (decide (x = a)) as [->|]; [congruence|]. right. set_solver.
    + rewrite elem_of_union, Hf, elem_of_singleton. split.
      * intros [[?|[? ?]]| ->]; [by left| |]; right; set_solver.
      * intros [?|[Hx Hnone]]; [by left; left|].
        destruct (decide (x = a)) as [->|]; [by right|]. left. right. set_solver.
  - unfold visited. by destruct (attempt w a).
Qed.

Lemma crawl_explored l f :
  crawl w (enter e0 seed_ip) l f → explored w e0 seed_ip f.
Proof.
  intros Hc. eapply (crawl_visited_ind (explored w e0 seed_ip));
    eauto using explored_visited.
  apply explored_enter.
Qed.

(** When the loop has exited, the seen set is the set of reachable
    addresses, whatever the order of the visits. *)
Lemma finished_seen_reach f :
  explored w e0 seed_ip f → finished f →
  ∀ a, a ∈ seen_switches f ↔ reach w seed_ip a.
Proof.
  intros [Hre Hse Hcl _ _ _] Hfin a. unfold finished in Hfin. split.
  - intros Ha. apply Hre. set_solver.
  - induction 1 as [|b r n _ IH Hr Hn]; [set_solver|].
    assert (n ∈ candidate_switches f ∪ seen_switches f) by eauto.
    set_solver.
Qed.

End Run.




End Worklist.

(** ** C8: the statistics *)

Lemma count_type_snoc t l r :
  count_type t (l ++ [r])
  = count_type t l + (if decide (type_or_unknown r = t) then 1 else 0).
Proof.
  unfold count_type. rewrite filter_app, length_app. f_equal.
  rewrite filter_cons, filter_nil. by case_decide.
Qed.

Lemma edge_count_snoc l r :
  edge_count (l ++ [r]) = edge_count l + length (SwitchInfo.neighbors r).
Proof. unfold edge_count. rewrite sum_list_with_app. simpl. lia. Qed.

Lemma counted_step init done stats r :
  counted init done stats → counted init (done ++ [r]) (count_switch stats r).
Proof.
  intros [Htot Hty Hnb Hts Hd Hf]. split; simpl; try done.
  - intros t. rewrite count_type_snoc.
    destruct (decide (type_or_unknown r = t)) as [->|Hne].
    + rewrite lookup_insert_eq, Hty.
      destruct (decide (count_type t done = 0)) as [Hz|Hz];
        [by rewrite Hz|]. simpl. by rewrite decide_False by lia.
    + rewrite lookup_insert_ne, Hty by done. by rewrite Nat.add_0_r.
  - rewrite edge_count_snoc. lia.
Qed.

Lemma counted_foldl init done stats l :
  counted init done stats → counted init (done ++ l) (foldl count_switch stats l).
Proof.
  revert done stats. induction l as [|r l IH]; intros done stats H; simpl.
  - by rewrite app_nil_r.
  - rewrite (assoc_L (++) done [r] l : done ++ r :: l = (done ++ [r]) ++ l).
    by apply IH, counted_step.
Qed.

Lemma get_topology_stats_counted e :
  let T := NetworkDiscoveryManager.topology e in
  counted
    (mkStats (size (NetworkTopology.switches T)) ∅ 0
       (NetworkTopology.discovery_timestamp T)
       (elements (NetworkDiscoveryManager.discovered_switches e))
       (elements (NetworkDiscoveryManager.failed_switches e)))
    (dict_values (NetworkTopology.switches T))
    (get_topology_stats e).
Proof.
  intros T. unfold get_topology_stats. fold T.
  apply (counted_foldl _ []). split; simpl; try done.
Qed.


(** C8: the statistics are read off the manager's state alone: the switch
    count is the number of topology entries; the histogram holds, for each
    tag, the number of stored records whose type (or ["unknown"] when the
    type is absent or empty) is that tag, and no entry for a tag without
    records; the neighbour count is the sum of the stored records'
    neighbour-list lengths; the discovered and failed lists enumerate the
    two sets without repetition; the timestamp is the topology's. *)
Theorem get_topology_stats_spec (e : NetworkDiscoveryManager.t) :
  let T := NetworkDiscoveryManager.topology e in
  let records := dict_values (NetworkTopology.switches T) in
  let stats := get_topology_stats e in
  total_switches stats = size (NetworkTopology.switches T)
  ∧ total_switches stats = length records
  ∧ (∀ t, switch_types stats !! t
          = if decide (count_type t records = 0) then None
            else Some (count_type t records))
  ∧ (∀ ip nbrs, type_or_unknown (SwitchInfo.mk ip None nbrs) = "unknown"
                ∧ type_or_unknown (SwitchInfo.mk ip (Some "") nbrs) = "unknown")
  ∧ (∀ ip t nbrs, t ≠ "" → type_or_unknown (SwitchInfo.mk ip (Some t) nbrs) = t)
  ∧ total_neighbors stats
    = sum_list_with (λ r, length (SwitchInfo.neighbors r)) records
  ∧ stats_discovery_timestamp stats = NetworkTopology.discovery_timestamp T
  ∧ (NoDup (discovered_ips stats)
     ∧ ∀ a, a ∈ discovered_ips stats ↔ a ∈ NetworkDiscoveryManager.discovered_switches e)
  ∧ (NoDup (failed_ips stats)
     ∧ ∀ a, a ∈ failed_ips stats ↔ a ∈ NetworkDiscoveryManager.failed_switches e).
Proof.
  intros T records stats.
  destruct (get_topology_stats_counted e) as [Htot Hty Hnb Hts Hd Hf].
  fold T records stats in Htot, Hty, Hnb, Hts, Hd, Hf. simpl in *.
  split; [done|]. split.
  { rewrite Htot. unfold records, dict_values.
    by rewrite length_fmap, length_map_to_list. }
  split; [done|]. split; [done|]. split.
  { intros ip t nbrs Ht. unfold type_or_unknown. simpl.
    by apply String.eqb_neq in Ht as ->. }
  split; [done|]. split; [done|].
  rewrite Hd, Hf. split; (split; [apply NoDup_elements|intros a; apply elem_of_elements]).
Qed.

(** ** Running a trace *)

Lemma trace_ok_crawl w l f :
  trace_ok w l f = true → crawl w f l (visited_all w l f).
Proof.
  revert f. induction l as [|a l IH]; intros f; simpl; [constructor|].
  intros [Ha Hl]%andb_prop. apply bool_decide_eq_true in Ha.
  apply crawl_visit'; auto.
Qed.

(** What the loop function returns is the end of a trace of the relation. *)
Lemma while_candidates_crawl w (p : PopPolicy) fuel f r f' :
  while_candidates w p fuel f = Some (r, f') →
  ∃ l, crawl w f l f' ∧ finished f'.
Proof.
  revert f. induction fuel as [|fuel IH]; intros f; simpl.
  - destruct (p (candidate_switches f)) eqn:Hp; [done|].
    intros [= _ <-]. exists []. split; [constructor|by apply pop_empty in Hp].
  - destruct (p (candidate_switches f)) as [a|] eqn:Hp.
    + rewrite iteration_visited. intros (l & Hc & Hfin)%IH.
      exists (a :: l). split; [|done]. apply crawl_visit'; [|done].
      by apply pop_elem in Hp.
    + intros [= _ <-]. exists []. split; [constructor|by apply pop_empty in Hp].
Qed.

(** On a closed set of addresses [discover_network] returns the topology. *)
Lemma discover_network_returns w (p : PopPolicy) U fuel now e seed_ip :
  seed_ip ∈ U → closed_under w U → size U ≤ fuel →
  ∃ l f, discover_network w p fuel now e seed_ip = Some (Normal (topology f), self f)
         ∧ crawl w (enter (stamp now e) seed_ip) l f ∧ finished f.
Proof.
  intros Hseed HU Hfuel.
  destruct (while_candidates_total w p U fuel (enter (stamp now e) seed_ip))
    as (l & f & Hrun & Hc & Hfin); auto using worklist_ok_enter, within_enter.
  { etrans; [apply subseteq_size|done]. set_solver. }
  exists l, f. unfold discover_network, _discover_switches_iterative.
  by rewrite Hrun.
Qed.

(** A trace lists the addresses the run has seen. *)
Lemma complete_trace_covers w e seed_ip l f :
  crawl w (enter e seed_ip) l f → ∀ a, a ∈ l ↔ a ∈ seen_switches f.
Proof.
  intros Hc a.
  destruct (crawl_trace w _ _ _ Hc (worklist_ok_enter e seed_ip)) as (_ & _ & -> & _).
  simpl. set_solver.
Qed.

(** ** C1: Discovered and Failed partition Seen *)

Lemma partition_visited w a f :
  self_addressed w a → a ∈ candidate_switches f → worklist_ok f →
  discovered f ## failed f → discovered f ∪ failed f = seen_switches f →
  discovered (visited w a f) ## failed (visited w a f)
  ∧ discovered (visited w a f) ∪ failed (visited w a f) = seen_switches (visited w a f).
Proof.
  unfold self_addressed, worklist_ok, visited. intros Hwa Ha Hok Hdis Hun.
  destruct (attempt w a) as [r|]; unfold discovered, failed in *; simpl.
  - rewrite Hwa. set_solver.
  - set_solver.
Qed.

Lemma crawl_partition_from w f l f' :
  crawl w f l f' → Forall (self_addressed w) l → worklist_ok f →
  discovered f ## failed f → discovered f ∪ failed f = seen_switches f →
  discovered f' ## failed f' ∧ discovered f' ∪ failed f' = seen_switches f'.
Proof.
  induction 1 as [|f a f1 l f2 Ha Hit _ IH]; [done|].
  rewrite iteration_visited in Hit. injection Hit as <-.
  intros [Ha' Hl]%Forall_cons Hok Hdis Hun.
  destruct (partition_visited w a f) as [Hdis' Hun']; auto.
  apply IH; auto using worklist_ok_visited.
Qed.

(** C1, as amended: for a crawl run on a manager whose Discovered and
    Failed sets are empty (a manager on which no crawl has run), in which
    every record delivered carries the address it was asked for, Discovered
    and Failed are disjoint and their union is Seen after every pass of the
    loop, hence at termination. *)
Theorem crawl_partition w e seed_ip l f :
  NetworkDiscoveryManager.discovered_switches e = ∅ →
  NetworkDiscoveryManager.failed_switches e = ∅ →
  Forall (self_addressed w) l →
  crawl w (enter e seed_ip) l f →
  discovered f ## failed f ∧ discovered f ∪ failed f = seen_switches f.
Proof.
  intros HD HF Hl Hc.
  eapply crawl_partition_from; eauto using worklist_ok_enter;
    unfold discovered, failed, enter; simpl; rewrite HD, HF; set_solver.
Qed.

Lemma crawl_partition_witness :
  let w := mock_world net_dead_end in
  let l := ["10.0.0.1"; "10.0.0.2"] in
  let f := visited_all w l (enter NetworkDiscoveryManager.init "10.0.0.1") in
  finished f
  ∧ discovered f ## failed f ∧ discovered f ∪ failed f = seen_switches f.
Proof.
  intros w l f. split; [vm_compute; reflexivity|].
  apply (crawl_partition w NetworkDiscoveryManager.init "10.0.0.1" l).
  - reflexivity.
  - reflexivity.
  - apply (bool_decide_unpack _). vm_compute. exact I.
  - apply trace_ok_crawl. vm_compute. reflexivity.
Defined.

(** C1 as stated fails: on the second call on one manager the Failed set
    still holds the address of the first call, which the second run never
    saw; and a record that carries another address than the one visited
    puts that other address in Discovered. *)
Lemma partition_counterexample :
  (∃ f1 f2,
     _discover_switches_iterative (mock_world net_dark) pop_first 1
       NetworkDiscoveryManager.init "10.0.0.1" = Some (Normal tt, f1)
     ∧ _discover_switches_iterative (mock_world net_dark) pop_first 1
         (self f1) "10.0.0.2" = Some (Normal tt, f2)
     ∧ failed f2 = {["10.0.0.1"; "10.0.0.2"]}
     ∧ seen_switches f2 = {["10.0.0.2"]}
     ∧ discovered f2 ∪ failed f2 ≠ seen_switches f2)
  ∧ (∃ f,
       _discover_switches_iterative (mock_world net_alias) pop_first 1
         NetworkDiscoveryManager.init "10.0.0.1" = Some (Normal tt, f)
       ∧ discovered f = {["192.168.1.31"]}
       ∧ seen_switches f = {["10.0.0.1"]}
       ∧ discovered f ∪ failed f ≠ seen_switches f).
Proof.
  split.
  - eexists _, _. split; [vm_compute; reflexivity|].
    split; [vm_compute; reflexivity|].
    split; [vm_compute; reflexivity|]. split; [vm_compute; reflexivity|].
    apply (bool_decide_unpack _). vm_compute. exact I.
  - eexists. split; [vm_compute; reflexivity|].
    split; [vm_compute; reflexivity|]. split; [vm_compute; reflexivity|].
    apply (bool_decide_unpack _). vm_compute. exact I.
Qed.

(** ** C2: a failure stays inside the pass that met it *)

Lemma try_block_raised w a f ex f1 :
  try_block w a f = (Raised ex, f1) → attempt w a = None ∧ f1 = f.
Proof.
  intros H. pose proof (try_block_cases w a f) as Hc.
  destruct (attempt w a) as [r|]; [congruence|].
  destruct Hc as [Hc|[e Hc]]; [congruence|]. split; [done|congruence].
Qed.

Lemma while_candidates_step w (p : PopPolicy) fuel f a :
  p (candidate_switches f) = Some a →
  while_candidates w p (S fuel) f = while_candidates w p fuel (visited w a f).
Proof. intros Hp. simpl. by rewrite Hp, iteration_visited. Qed.

(** C2: when anything raises in the [try] block of the pass for [a], the
    pass itself ends normally, with [a] in Failed and every other candidate
    still waiting; the loop goes on from that frame and never ends by an
    exception.  On a finite neighbour environment [discover_network]
    returns the topology and the manager of a complete run of the loop:
    the run has visited every address that can be reached from the seed,
    those behind [a] that other addresses report included, and [a], when
    it can be reached, is in the Failed set of the manager returned. *)
Theorem per_node_failure_isolated w a f ex f1 :
  try_block w a (seen_add a (pop_candidate a f)) = (Raised ex, f1) →
  iteration w a f = (Normal tt, visited_failed a f)
  ∧ a ∈ failed (visited_failed a f)
  ∧ candidate_switches (visited_failed a f) = candidate_switches f ∖ {[a]}
  ∧ (∀ (p : PopPolicy) fuel,
       p (candidate_switches f) = Some a →
       while_candidates w p (S fuel) f
       = while_candidates w p fuel (visited_failed a f))
  ∧ (∀ (p : PopPolicy) fuel r f',
       while_candidates w p fuel f = Some (r, f') → r = Normal tt)
  ∧ (∀ (p : PopPolicy) U fuel now e seed_ip,
       seed_ip ∈ U → closed_under w U → size U ≤ fuel →
       ∃ l f', discover_network w p fuel now e seed_ip
               = Some (Normal (topology f'), self f')
               ∧ crawl w (enter (stamp now e) seed_ip) l f'
               ∧ finished f'
               ∧ (∀ x, x ∈ l ↔ reach w seed_ip x)
               ∧ (reach w seed_ip a →
                  a ∈ NetworkDiscoveryManager.failed_switches (self f'))).
Proof.
  intros [Hnone _]%try_block_raised.
  assert (visited w a f = visited_failed a f) as Hv
    by (unfold visited; by rewrite Hnone).
  split; [by rewrite iteration_visited, Hv|].
  split; [unfold failed; simpl; set_solver|]. split; [done|].
  split; [by intros p fuel Hp; rewrite <- Hv; apply while_candidates_step|].
  split; [by intros p fuel r f'; apply while_candidates_normal|].
  intros p U fuel now e seed_ip Hs HU Hfuel.
  destruct (discover_network_returns w p U fuel now e seed_ip)
    as (l & f' & H & Hc & Hfin); [done..|].
  pose proof (crawl_explored w _ _ _ _ Hc) as Hex.
  pose proof (finished_seen_reach w _ seed_ip f' Hex Hfin) as Hreach.
  exists l, f'. split; [done|]. split; [done|]. split; [done|]. split.
  - intros x. rewrite <- Hreach.
    apply (complete_trace_covers w _ seed_ip l f' Hc).
  - intros Ha. apply (ex_failed _ _ _ _ Hex). right.
    split; [by apply Hreach|done].
Qed.

Lemma per_node_failure_isolated_witness :
  let w := mock_world net_dead_end in
  let a := "10.0.0.2" in
  let f := visited w "10.0.0.1" (enter NetworkDiscoveryManager.init "10.0.0.1") in
  try_block w a (seen_add a (pop_candidate a f))
  = (Raised (CollaboratorError "connection refused"), seen_add a (pop_candidate a f))
  ∧ iteration w a f = (Normal tt, visited_failed a f)
  ∧ a ∈ failed (visited_failed a f)
  ∧ ∃ l f', discover_network w pop_first 2 0 NetworkDiscoveryManager.init "10.0.0.1"
            = Some (Normal (topology f'), self f')
            ∧ crawl w (enter (stamp 0 NetworkDiscoveryManager.init) "10.0.0.1") l f'
            ∧ finished f'
            ∧ a ∈ l
            ∧ a ∈ NetworkDiscoveryManager.failed_switches (self f').
Proof.
  intros w a f.
  assert (try_block w a (seen_add a (pop_candidate a f))
          = (Raised (CollaboratorError "connection refused"),
             seen_add a (pop_candidate a f))) as H
    by (vm_compute; reflexivity).
  assert (reach w "10.0.0.1" a) as Hreach.
  { apply (reach_neighbor w "10.0.0.1" "10.0.0.1"
             (SwitchInfo.mk "10.0.0.1" (Some "hirschmann") [NeighborInfo.mk a []]) a).
    - apply reach_seed.
    - reflexivity.
    - apply (bool_decide_unpack _). vm_compute. exact I. }
  split; [exact H|].
  destruct (per_node_failure_isolated w a f _ _ H) as (H1 & H2 & _ & _ & _ & H6).
  split; [exact H1|]. split; [exact H2|].
  destruct (H6 pop_first {["10.0.0.1"; "10.0.0.2"]} 2 0 NetworkDiscoveryManager.init
              "10.0.0.1") as (l & f' & Hrun & Hc & Hfin & Hl & Hf).
  - apply (bool_decide_unpack _). vm_compute. exact I.
  - apply (bool_decide_unpack _). vm_compute. exact I.
  - vm_compute. lia.
  - exists l, f'. split; [exact Hrun|]. split; [exact Hc|]. split; [exact Hfin|].
    split; [by apply Hl|by apply Hf].
Defined.

(** ** C3: a vendor without a discovery class *)

Lemma attempt_unregistered w a vendor ssh_client credentials :
  detect_switch_type w a = Normal (Some vendor, ssh_client, credentials) →
  discovery_classes w !! vendor = None →
  attempt w a = None.
Proof.
  intros Hd Hc. unfold attempt. rewrite Hd. simpl. rewrite Hc.
  destruct (from_option disconnect (Normal ()) ssh_client); [|done].
  destruct (truthy_dict credentials && negb (String.eqb vendor "")); [|done].
  by destruct (subscript credentials "username"), (subscript credentials "password").
Qed.

(** C3: when the probe returns a vendor tag for which [discovery_classes]
    has no entry, the pass ends normally with the address in Failed,
    Discovered and the topology as they were and the other candidates still
    waiting; the loop goes on from that frame and never ends by an
    exception. *)
Theorem unregistered_vendor_fails w a f vendor ssh_client credentials :
  detect_switch_type w a = Normal (Some vendor, ssh_client, credentials) →
  discovery_classes w !! vendor = None →
  iteration w a f = (Normal tt, visited_failed a f)
  ∧ a ∈ failed (visited_failed a f)
  ∧ discovered (visited_failed a f) = discovered f
  ∧ topology (visited_failed a f) = topology f
  ∧ candidate_switches (visited_failed a f) = candidate_switches f ∖ {[a]}
  ∧ (∀ (p : PopPolicy) fuel,
       p (candidate_switches f) = Some a →
       while_candidates w p (S fuel) f
       = while_candidates w p fuel (visited_failed a f))
  ∧ (∀ (p : PopPolicy) fuel r f',
       while_candidates w p fuel f = Some (r, f') → r = Normal tt).
Proof.
  intros Hd Hc. pose proof (attempt_unregistered _ _ _ _ _ Hd Hc) as Hnone.
  assert (visited w a f = visited_failed a f) as Hv
    by (unfold visited; by rewrite Hnone).
  split; [by rewrite iteration_visited, Hv|].
  split; [unfold failed; simpl; set_solver|].
  split; [done|]. split; [done|]. split; [done|].
  split; [by intros p fuel Hp; rewrite <- Hv; apply while_candidates_step|].
  by intros p fuel r f'; apply while_candidates_normal.
Qed.

Lemma unregistered_vendor_fails_witness :
  let w := mock_world net_foreign in
  let a := "10.0.0.1" in
  let f := enter NetworkDiscoveryManager.init a in
  detect_switch_type w a
  = Normal (Some "cisco", Some {| disconnect := Normal tt |}, Some mock_credentials)
  ∧ discovery_classes w !! "cisco" = None
  ∧ iteration w a f = (Normal tt, visited_failed a f)
  ∧ a ∈ failed (visited_failed a f)
  ∧ _discover_switches_iterative w pop_first 1 NetworkDiscoveryManager.init a
    = Some (Normal tt, visited_failed a f).
Proof.
  intros w a f.
  assert (detect_switch_type w a
          = Normal (Some "cisco", Some {| disconnect := Normal tt |},
                    Some mock_credentials)) as Hd by reflexivity.
  assert (discovery_classes w !! "cisco" = None) as Hc by reflexivity.
  split; [exact Hd|]. split; [exact Hc|].
  destruct (unregistered_vendor_fails w a f _ _ _ Hd Hc) as (H1 & H2 & _).
  split; [exact H1|]. split; [exact H2|]. vm_compute. reflexivity.
Defined.

(** ** C4: a successful visit *)

(** When the [try] block goes through, in terms of the collaborators. *)
Lemma attempt_success w a vendor ssh_client credentials username password
    (cls : DiscoveryClass) switch_instance switch_info :
  detect_switch_type w a = Normal (Some vendor, ssh_client, Some credentials) →
  from_option disconnect (Normal tt) ssh_client = Normal tt →
  vendor ≠ "" →
  credentials !! "username" = Some username →
  credentials !! "password" = Some password →
  discovery_classes w !! vendor = Some cls →
  cls a username password = Normal switch_instance →
  get_switch_info switch_instance = Normal switch_info →
  attempt w a = Some switch_info.
Proof.
  intros Hd Hs Hv Hu Hp Hc Hi Hr. unfold attempt. rewrite Hd, Hs. simpl.
  rewrite Hu, Hp, Hc, Hi, Hr.
  assert (credentials ≠ ∅) as Hne by (intros ->; by rewrite lookup_empty in Hu).
  rewrite (bool_decide_eq_false_2 _ Hne). simpl.
  by apply String.eqb_neq in Hv as ->.
Qed.

(** C4, as amended: when the visit of [a] succeeds with the record [r], the
    record is stored under its own address field and that address joins
    Discovered (so the record is stored under [a], and [a] joins
    Discovered, when the record carries the address [a]); Failed is as it
    was; the candidates afterwards are the earlier ones other than [a]
    together with the neighbours of [r] that are not in Seen, [a] included
    in Seen; no member of Seen is added to the candidates. *)
Theorem visit_success w a f r :
  attempt w a = Some r →
  ∃ f', iteration w a f = (Normal tt, f')
    ∧ switches f' = <[SwitchInfo.ip r := r]> (switches f)
    ∧ discovered f' = discovered f ∪ {[SwitchInfo.ip r]}
    ∧ failed f' = failed f
    ∧ seen_switches f' = seen_switches f ∪ {[a]}
    ∧ (∀ n, n ∈ candidate_switches f' ↔
            (n ∈ candidate_switches f ∧ n ≠ a)
            ∨ (n ∈ neighbor_ips r ∧ n ∉ seen_switches f'))
    ∧ (∀ n, n ∈ seen_switches f' → n ∈ candidate_switches f' →
            n ∈ candidate_switches f)
    ∧ (SwitchInfo.ip r = a →
       switches f' = <[a := r]> (switches f) ∧ a ∈ discovered f').
Proof.
  intros Hr. exists (visited_ok a r f).
  split; [rewrite iteration_visited; unfold visited; by rewrite Hr|].
  unfold switches, discovered, failed, topology; simpl.
  split; [done|]. split; [done|]. split; [done|]. split; [done|].
  split; [set_solver|]. split; [set_solver|].
  intros ->. split; [done|set_solver].
Qed.

Lemma visit_success_witness :
  let w := mock_world net_cycle in
  let a := "10.0.0.1" in
  let f := enter NetworkDiscoveryManager.init a in
  let r := SwitchInfo.mk a (Some "hirschmann") [NeighborInfo.mk "10.0.0.2" []] in
  attempt w a = Some r
  ∧ ∃ f', iteration w a f = (Normal tt, f')
      ∧ switches f' = {[a := r]}
      ∧ discovered f' = {[a]}
      ∧ candidate_switches f' = {["10.0.0.2"]}.
Proof.
  intros w a f r.
  assert (attempt w a = Some r) as Hr by reflexivity.
  split; [exact Hr|].
  destruct (visit_success w a f r Hr) as (f' & Hit & Hsw & Hd & _).
  exists f'. split; [exact Hit|].
  assert (f' = visited w a f) as ->
    by (rewrite iteration_visited in Hit; congruence).
  split; [|split]; vm_compute; reflexivity.
Defined.

(** C4 as stated fails: a switch reached at 10.0.0.1 that reports
    192.168.1.31 as its own address is recorded under the latter only; the
    address visited is neither in Discovered nor a key of the topology. *)
Lemma visit_alias_counterexample :
  let w := mock_world net_alias in
  let a := "10.0.0.1" in
  let f := enter NetworkDiscoveryManager.init a in
  ∃ r f', attempt w a = Some r
    ∧ iteration w a f = (Normal tt, f')
    ∧ discovered f' = {["192.168.1.31"]}
    ∧ (a ∉ discovered f')
    ∧ switches f' !! a = None
    ∧ switches f' !! "192.168.1.31" = Some r.
Proof.
  intros w a f. eexists _, _. split; [vm_compute; reflexivity|].
  split; [vm_compute; reflexivity|]. split; [vm_compute; reflexivity|].
  split; [apply (bool_decide_unpack _); vm_compute; exact I|].
  split; vm_compute; reflexivity.
Qed.

(** ** C7: the state a run starts from *)

Lemma crawl_monotone w e seed_ip l f :
  crawl w (enter e seed_ip) l f →
  NetworkDiscoveryManager.discovered_switches e ⊆ discovered f
  ∧ NetworkDiscoveryManager.failed_switches e ⊆ failed f.
Proof.
  intros [_ _ _ Hd Hf _]%crawl_explored.
  split; intros x Hx; [apply Hd|apply Hf]; by left.
Qed.

(** C7, as amended: every run starts with Candidate = {seed} and Seen
    empty, both local to the run.  Discovered and Failed belong to the
    manager: a run starts from the sets the manager holds, which are empty
    on a manager just constructed, and a run only adds to them. *)
Theorem run_entry_state w now e seed_ip :
  let f0 := enter (stamp now e) seed_ip in
  candidate_switches f0 = {[seed_ip]}
  ∧ seen_switches f0 = ∅
  ∧ discovered f0 = NetworkDiscoveryManager.discovered_switches e
  ∧ failed f0 = NetworkDiscoveryManager.failed_switches e
  ∧ NetworkDiscoveryManager.discovered_switches NetworkDiscoveryManager.init = ∅
  ∧ NetworkDiscoveryManager.failed_switches NetworkDiscoveryManager.init = ∅
  ∧ (∀ (p : PopPolicy) fuel,
       discover_network w p fuel now e seed_ip
       = match while_candidates w p fuel f0 with
         | Some (Normal _, f) => Some (Normal (topology f), self f)
         | Some (Raised ex, f) => Some (Raised ex, self f)
         | None => None
         end)
  ∧ (∀ l f, crawl w f0 l f →
            NetworkDiscoveryManager.discovered_switches e ⊆ discovered f
            ∧ NetworkDiscoveryManager.failed_switches e ⊆ failed f).
Proof.
  intros f0. split; [unfold f0, enter; simpl; set_solver|].
  split; [done|]. split; [done|]. split; [done|]. split; [done|].
  split; [done|]. split.
  - intros p fuel. unfold discover_network, _discover_switches_iterative.
    fold f0. by destruct (while_candidates w p fuel f0) as [[[] ?]|].
  - intros l f Hc. by apply crawl_monotone in Hc.
Qed.

(** C7 as stated fails: after a first call that failed on 10.0.0.1, the
    second call on the same manager enters its loop with that address in
    Failed. *)
Lemma second_run_counterexample :
  ∃ T1 e1,
    discover_network (mock_world net_dark) pop_first 1 0
      NetworkDiscoveryManager.init "10.0.0.1" = Some (Normal T1, e1)
    ∧ failed (enter (stamp 1 e1) "10.0.0.2") = {["10.0.0.1"]}
    ∧ failed (enter (stamp 1 e1) "10.0.0.2") ≠ ∅.
Proof.
  eexists _, _. split; [vm_compute; reflexivity|].
  split; [vm_compute; reflexivity|].
  apply (bool_decide_unpack _). vm_compute. exact I.
Qed.

(** ** C5: termination, and no second visit *)

Lemma crawl_no_repeat w e seed_ip U l f :
  seed_ip ∈ U → closed_under w U → crawl w (enter e seed_ip) l f →
  NoDup l ∧ length l ≤ size U.
Proof.
  intros Hs HU Hc. split.
  - by destruct (crawl_trace w _ _ _ Hc (worklist_ok_enter e seed_ip)).
  - etrans; [eapply crawl_length; eauto using worklist_ok_enter, within_enter|].
    apply subseteq_size. set_solver.
Qed.

Lemma discover_switches_total w (p : PopPolicy) U fuel e seed_ip :
  seed_ip ∈ U → closed_under w U → size U ≤ fuel →
  ∃ l f, _discover_switches_iterative w p fuel e seed_ip = Some (Normal tt, f)
         ∧ crawl w (enter e seed_ip) l f ∧ finished f.
Proof.
  intros Hs HU Hfuel. unfold _discover_switches_iterative.
  apply (while_candidates_total w p U); auto using worklist_ok_enter, within_enter.
  etrans; [apply subseteq_size|done]. set_solver.
Qed.

Lemma size_pair (X Y : string) : X ≠ Y → size ({[X; Y]} : gset string) = 2.
Proof.
  intros Hne. rewrite size_union by set_solver. by rewrite !size_singleton.
Qed.

(** The two-node cycle, visit by visit. *)
Lemma cycle_crawl w e X Y rX rY l f :
  X ≠ Y →
  attempt w X = Some rX → SwitchInfo.ip rX = X → neighbor_ips rX = [Y] →
  attempt w Y = Some rY → SwitchInfo.ip rY = Y → neighbor_ips rY = [X] →
  crawl w (enter e X) l f → finished f →
  l = [X; Y]
  ∧ discovered f = NetworkDiscoveryManager.discovered_switches e ∪ {[X; Y]}
  ∧ seen_switches f = {[X; Y]}.
Proof.
  intros Hne HX HiX HnX HY HiY HnY Hc Hfin. unfold finished in Hfin.
  destruct l as [|a l].
  { apply crawl_nil_inv in Hc as ->. simpl in Hfin. set_solver. }
  apply crawl_cons_inv in Hc as [Ha Hc]. simpl in Ha.
  assert (a = X) as -> by set_solver. clear Ha.
  unfold visited in Hc. rewrite HX in Hc.
  destruct l as [|b l].
  { apply crawl_nil_inv in Hc as ->. simpl in Hfin. rewrite HnX in Hfin.
    set_solver. }
  apply crawl_cons_inv in Hc as [Hb Hc]. simpl in Hb. rewrite HnX in Hb.
  assert (b = Y) as -> by set_solver. clear Hb.
  unfold visited in Hc. rewrite HY in Hc.
  destruct l as [|c l].
  - apply crawl_nil_inv in Hc as ->. split; [done|].
    unfold discovered; simpl. unfold discovered; simpl.
    rewrite HiX, HiY. split; set_solver.
  - apply crawl_cons_inv in Hc as [Hcand _]. simpl in Hcand.
    rewrite HnX, HnY in Hcand. set_solver.
Qed.

(** C5, as amended: on a finite neighbour environment (a set [U] of
    addresses that holds the seed and every neighbour reported by a
    discovered member) no trace of the loop visits an address twice or is
    longer than [U], and the loop function returns, normally, with fuel for
    [size U] passes, under any pop policy.  In the cycle of two distinct
    addresses X and Y, when the record delivered for X carries the address
    X, the record delivered for Y carries the address Y, and the manager
    has discovered nothing before the run, the only complete trace from
    the seed X is [X; Y], and it ends with Discovered = {X, Y}. *)
Theorem crawl_terminates_visiting_once :
  (∀ w e seed_ip U,
     seed_ip ∈ U → closed_under w U →
     (∀ l f, crawl w (enter e seed_ip) l f → NoDup l ∧ length l ≤ size U)
     ∧ (∀ (p : PopPolicy) fuel, size U ≤ fuel →
          ∃ l f, _discover_switches_iterative w p fuel e seed_ip
                 = Some (Normal tt, f)
                 ∧ crawl w (enter e seed_ip) l f ∧ finished f))
  ∧ (∀ w e X Y rX rY,
       X ≠ Y →
       attempt w X = Some rX → SwitchInfo.ip rX = X → neighbor_ips rX = [Y] →
       attempt w Y = Some rY → SwitchInfo.ip rY = Y → neighbor_ips rY = [X] →
       NetworkDiscoveryManager.discovered_switches e = ∅ →
       (∀ l f, crawl w (enter e X) l f → finished f →
               l = [X; Y] ∧ discovered f = {[X; Y]})
       ∧ (∀ (p : PopPolicy) fuel, 2 ≤ fuel →
            ∃ f, _discover_switches_iterative w p fuel e X = Some (Normal tt, f)
                 ∧ discovered f = {[X; Y]} ∧ counter f = 2)).
Proof.
  split.
  - intros w e seed_ip U Hs HU. split.
    + intros l f Hc. by eapply crawl_no_repeat.
    + intros p fuel Hfuel. by eapply discover_switches_total.
  - intros w e X Y rX rY Hne HX HiX HnX HY HiY HnY HD.
    assert (∀ l f, crawl w (enter e X) l f → finished f →
                   l = [X; Y] ∧ discovered f = {[X; Y]}) as Hall.
    { intros l f Hc Hfin.
      destruct (cycle_crawl w e X Y rX rY l f) as (-> & -> & _); auto.
      split; [done|]. rewrite HD. set_solver. }
    split; [done|]. intros p fuel Hfuel.
    destruct (discover_switches_total w p {[X; Y]} fuel e X)
      as (l & f & Hrun & Hc & Hfin).
    + set_solver.
    + intros a Ha. unfold stays_within.
      assert (a = X ∨ a = Y) as [-> | ->] by set_solver.
      * rewrite HX, HnX. set_solver.
      * rewrite HY, HnY. set_solver.
    + by rewrite size_pair.
    + exists f. split; [done|]. destruct (Hall l f Hc Hfin) as [-> ->].
      split; [done|]. rewrite (crawl_visited_all w _ _ _ Hc). simpl.
      unfold visited. by rewrite HX, HY.
Qed.

Lemma crawl_terminates_visiting_once_witness :
  let w := mock_world net_cycle in
  let X := "10.0.0.1" in
  let Y := "10.0.0.2" in
  let e := NetworkDiscoveryManager.init in
  (X ∈ ({[X; Y]} : gset string) ∧ closed_under w {[X; Y]})
  ∧ (∃ l f, _discover_switches_iterative w pop_last 2 e X = Some (Normal tt, f)
            ∧ crawl w (enter e X) l f ∧ finished f)
  ∧ (∃ f, _discover_switches_iterative w pop_first 2 e X = Some (Normal tt, f)
          ∧ discovered f = {[X; Y]} ∧ counter f = 2).
Proof.
  intros w X Y e.
  assert (X ∈ ({[X; Y]} : gset string)) as Hs
    by (apply (bool_decide_unpack _); vm_compute; exact I).
  assert (closed_under w {[X; Y]}) as HU
    by (apply (bool_decide_unpack _); vm_compute; exact I).
  destruct crawl_terminates_visiting_once as [Hgen Hcyc].
  split; [done|]. split.
  - apply (Hgen w e X {[X; Y]} Hs HU). vm_compute. lia.
  - destruct (Hcyc w e X Y
                (SwitchInfo.mk X (Some "hirschmann") [NeighborInfo.mk Y []])
                (SwitchInfo.mk Y (Some "lantech") [NeighborInfo.mk X []]))
      as [_ Hrun]; try reflexivity; [discriminate|].
    apply (Hrun pop_first 2). lia.
Defined.

(** C5 as stated fails in its cycle scenario.  X = 10.0.0.1 and
    Y = 10.0.0.2 list each other and both discoveries succeed, yet
    Discovered is not {X, Y}: (1) when the record delivered for X carries
    the address 192.168.1.31, that address is added to Discovered in place
    of X; (2) when an earlier call on the same manager has discovered
    10.0.0.3, that address is still in Discovered after the crawl of the
    cycle.  In both runs the loop terminates after two passes. *)
Lemma cycle_discovered_counterexample :
  let X := "10.0.0.1" in
  let Y := "10.0.0.2" in
  (let w := mock_world net_alias_cycle in
   neighbor_ips <$> attempt w X = Some [Y]
   ∧ neighbor_ips <$> attempt w Y = Some [X]
   ∧ ∃ f, _discover_switches_iterative w pop_first 2 NetworkDiscoveryManager.init X
          = Some (Normal tt, f)
          ∧ counter f = 2
          ∧ discovered f = {["192.168.1.31"; Y]}
          ∧ discovered f ≠ {[X; Y]})
  ∧ (let w := mock_world net_cycle_apart in
     neighbor_ips <$> attempt w X = Some [Y]
     ∧ neighbor_ips <$> attempt w Y = Some [X]
     ∧ SwitchInfo.ip <$> attempt w X = Some X
     ∧ SwitchInfo.ip <$> attempt w Y = Some Y
     ∧ ∃ T1 e1 f,
         discover_network w pop_first 1 0 NetworkDiscoveryManager.init "10.0.0.3"
         = Some (Normal T1, e1)
         ∧ _discover_switches_iterative w pop_first 2 (stamp 1 e1) X
           = Some (Normal tt, f)
         ∧ counter f = 2
         ∧ discovered f = {[X; Y; "10.0.0.3"]}
         ∧ discovered f ≠ {[X; Y]}).
Proof.
  intros X Y. split.
  - intros w. split; [reflexivity|]. split; [reflexivity|].
    eexists. split; [vm_compute; reflexivity|].
    split; [vm_compute; reflexivity|]. split; [vm_compute; reflexivity|].
    apply (bool_decide_unpack _). vm_compute. exact I.
  - intros w. split; [reflexivity|]. split; [reflexivity|].
    split; [reflexivity|]. split; [reflexivity|].
    eexists _, _, _. split; [vm_compute; reflexivity|].
    split; [vm_compute; reflexivity|].
    split; [vm_compute; reflexivity|]. split; [vm_compute; reflexivity|].
    apply (bool_decide_unpack _). vm_compute. exact I.
Qed.

(** ** C6: a seed whose only neighbour fails *)

Lemma dead_end_crawl w e X Y rX l f :
  X ≠ Y →
  attempt w X = Some rX → SwitchInfo.ip rX = X → neighbor_ips rX = [Y] →
  attempt w Y = None →
  crawl w (enter e X) l f → finished f →
  l = [X; Y]
  ∧ discovered f = NetworkDiscoveryManager.discovered_switches e ∪ {[X]}
  ∧ failed f = NetworkDiscoveryManager.failed_switches e ∪ {[Y]}
  ∧ switches f
    = <[X := rX]> (NetworkTopology.switches (NetworkDiscoveryManager.topology e)).
Proof.
  intros Hne HX HiX HnX HY Hc Hfin. unfold finished in Hfin.
  destruct l as [|a l].
  { apply crawl_nil_inv in Hc as ->. simpl in Hfin. set_solver. }
  apply crawl_cons_inv in Hc as [Ha Hc]. simpl in Ha.
  assert (a = X) as -> by set_solver. clear Ha.
  unfold visited in Hc. rewrite HX in Hc.
  destruct l as [|b l].
  { apply crawl_nil_inv in Hc as ->. simpl in Hfin. rewrite HnX in Hfin.
    set_solver. }
  apply crawl_cons_inv in Hc as [Hb Hc]. simpl in Hb. rewrite HnX in Hb.
  assert (b = Y) as -> by set_solver. clear Hb.
  unfold visited in Hc. rewrite HY in Hc.
  destruct l as [|c l].
  - apply crawl_nil_inv in Hc as ->. split; [done|].
    unfold discovered, failed, switches, topology; simpl.
    unfold discovered, failed, topology; simpl. by rewrite HiX.
  - apply crawl_cons_inv in Hc as [Hcand _]. simpl in Hcand.
    rewrite HnX in Hcand. set_solver.
Qed.

(** C6, as amended: on a manager whose Discovered set, Failed set and
    topology are empty, when the seed X is discovered with a record that
    carries the address X and lists the single neighbour Y, and the visit
    of Y fails, every complete run ends with Discovered = {X},
    Failed = {Y}, a topology of the one entry X, and statistics that count
    one switch and one neighbour edge; and the loop function does return
    such a run. *)
Theorem scenario_failed_neighbor w e X Y rX :
  attempt w X = Some rX → SwitchInfo.ip rX = X → neighbor_ips rX = [Y] →
  attempt w Y = None →
  NetworkDiscoveryManager.discovered_switches e = ∅ →
  NetworkDiscoveryManager.failed_switches e = ∅ →
  NetworkTopology.switches (NetworkDiscoveryManager.topology e) = ∅ →
  (∀ l f, crawl w (enter e X) l f → finished f →
     discovered f = {[X]} ∧ failed f = {[Y]}
     ∧ switches f = {[X := rX]}
     ∧ total_switches (get_topology_stats (self f)) = 1
     ∧ total_neighbors (get_topology_stats (self f)) = 1)
  ∧ (∀ (p : PopPolicy) fuel, 2 ≤ fuel →
       ∃ l f, _discover_switches_iterative w p fuel e X = Some (Normal tt, f)
              ∧ crawl w (enter e X) l f ∧ finished f).
Proof.
  intros HX HiX HnX HY HD HF HT.
  assert (X ≠ Y) as Hne by (intros ->; congruence).
  split.
  - intros l f Hc Hfin.
    destruct (dead_end_crawl w e X Y rX l f) as (_ & Hd & Hf & Hs); auto.
    rewrite HD in Hd. rewrite HF in Hf. rewrite HT, insert_empty in Hs.
    split; [set_solver|]. split; [set_solver|]. split; [done|].
    destruct (get_topology_stats_counted (self f)) as [Htot _ Hnb _ _ _].
    simpl in Htot. fold (topology f) in Htot, Hnb. fold (switches f) in Htot, Hnb.
    rewrite Htot, Hnb, Hs. split; [apply map_size_singleton|].
    unfold dict_values. rewrite map_to_list_singleton. simpl.
    unfold neighbor_ips in HnX. apply (f_equal length) in HnX.
    rewrite length_fmap in HnX. rewrite HnX. done.
  - intros p fuel Hfuel.
    apply (discover_switches_total w p {[X; Y]}).
    + set_solver.
    + intros a Ha. unfold stays_within.
      assert (a = X ∨ a = Y) as [-> | ->] by set_solver.
      * rewrite HX, HnX. set_solver.
      * by rewrite HY.
    + by rewrite size_pair.
Qed.

Lemma scenario_failed_neighbor_witness :
  let w := mock_world net_dead_end in
  let X := "10.0.0.1" in
  let Y := "10.0.0.2" in
  let rX := SwitchInfo.mk X (Some "hirschmann") [NeighborInfo.mk Y []] in
  (attempt w X = Some rX ∧ attempt w Y = None)
  ∧ ∃ f, _discover_switches_iterative w pop_first 2 NetworkDiscoveryManager.init X
         = Some (Normal tt, f)
      ∧ discovered f = {[X]} ∧ failed f = {[Y]}
      ∧ switches f = {[X := rX]}
      ∧ total_switches (get_topology_stats (self f)) = 1
      ∧ total_neighbors (get_topology_stats (self f)) = 1.
Proof.
  intros w X Y rX.
  assert (attempt w X = Some rX) as HX by reflexivity.
  assert (attempt w Y = None) as HY by reflexivity.
  split; [done|].
  destruct (scenario_failed_neighbor w NetworkDiscoveryManager.init X Y rX)
    as [Hall Hrun]; try reflexivity.
  destruct (Hrun pop_first 2) as (l & f & Hf & Hc & Hfin); [lia|].
  exists f. split; [exact Hf|]. by apply (Hall l f).
Defined.

(** C6 as stated fails.  The seed X = 10.0.0.1 is discovered and reports
    the single neighbour Y = 10.0.0.2, whose discovery session raises.
    (1) On a manager that an earlier call for 10.0.0.9 has used, Failed
    ends as {Y, 10.0.0.9}, not {Y}.  (2) When the record delivered for X
    carries the address 192.168.1.31, Discovered ends as {192.168.1.31},
    not {X}, and the one entry of the topology is not under X. *)
Lemma failed_neighbor_counterexample :
  let X := "10.0.0.1" in
  let Y := "10.0.0.2" in
  (let w := mock_world net_dead_end in
   neighbor_ips <$> attempt w X = Some [Y]
   ∧ SwitchInfo.ip <$> attempt w X = Some X
   ∧ try_block w Y (enter NetworkDiscoveryManager.init Y)
     = (Raised (CollaboratorError "connection refused"),
        enter NetworkDiscoveryManager.init Y)
   ∧ ∃ T1 e1 T2 e2,
       discover_network w pop_first 1 0 NetworkDiscoveryManager.init "10.0.0.9"
       = Some (Normal T1, e1)
       ∧ discover_network w pop_first 2 1 e1 X = Some (Normal T2, e2)
       ∧ NetworkDiscoveryManager.discovered_switches e2 = {[X]}
       ∧ NetworkDiscoveryManager.failed_switches e2 = {[Y; "10.0.0.9"]}
       ∧ NetworkDiscoveryManager.failed_switches e2 ≠ {[Y]})
  ∧ (let w := mock_world net_alias_dead_end in
     neighbor_ips <$> attempt w X = Some [Y]
     ∧ try_block w Y (enter NetworkDiscoveryManager.init Y)
       = (Raised (CollaboratorError "connection refused"),
          enter NetworkDiscoveryManager.init Y)
     ∧ ∃ T e,
         discover_network w pop_first 2 0 NetworkDiscoveryManager.init X
         = Some (Normal T, e)
         ∧ NetworkDiscoveryManager.failed_switches e = {[Y]}
         ∧ NetworkDiscoveryManager.discovered_switches e = {["192.168.1.31"]}
         ∧ NetworkDiscoveryManager.discovered_switches e ≠ {[X]}
         ∧ NetworkTopology.switches T !! X = None
         ∧ total_neighbors (get_topology_stats e) = 1).
Proof.
  intros X Y. split.
  - intros w. split; [reflexivity|]. split; [reflexivity|].
    split; [vm_compute; reflexivity|].
    eexists _, _, _, _. split; [vm_compute; reflexivity|].
    split; [vm_compute; reflexivity|].
    split; [vm_compute; reflexivity|]. split; [vm_compute; reflexivity|].
    apply (bool_decide_unpack _). vm_compute. exact I.
  - intros w. split; [reflexivity|]. split; [vm_compute; reflexivity|].
    eexists _, _. split; [vm_compute; reflexivity|].
    split; [vm_compute; reflexivity|]. split; [vm_compute; reflexivity|].
    split; [apply (bool_decide_unpack _); vm_compute; exact I|].
    split; vm_compute; reflexivity.
Qed.

(** ** C9: the order of the visits does not matter *)







(** ** C10: the port table without an ["Interface"] header *)

(** C10: when no line, stripped, starts with ["Interface"],
    [parse_vlan_ports_table] raises [AnsibleFilterError]; it returns no
    membership mapping. *)
Theorem no_interface_header_raises (stdout_lines : list string) :
  Forall (λ line, Vlan.startswith (Vlan.strip line) "Interface" = false)
         stdout_lines →
  Vlan.find_port_line stdout_lines = None
  ∧ Vlan.parse_vlan_ports_table stdout_lines
    = Vlan.AnsibleFilterError "Could not find port header in output".
Proof.
  intros H.
  assert (Vlan.find_port_line stdout_lines = None) as Hnone.
  { induction H as [|line rest Hline _ IH]; simpl; [done|]. by rewrite Hline. }
  split; [done|]. unfold Vlan.parse_vlan_ports_table. by rewrite Hnone.
Qed.

Lemma no_interface_header_raises_witness :
  Forall (λ line, Vlan.startswith (Vlan.strip line) "Interface" = false)
         docstring_table
  ∧ Vlan.parse_vlan_ports_table docstring_table
    = Vlan.AnsibleFilterError "Could not find port header in output".
Proof.
  assert (Forall (λ line, Vlan.startswith (Vlan.strip line) "Interface" = false)
                 docstring_table) as H
    by (apply (bool_decide_unpack _); vm_compute; exact I).
  split; [exact H|]. apply (no_interface_header_raises docstring_table H).
Defined.

(** * Further properties *)

(** ** The crawl: what a complete run has seen and recorded *)

(** X1: when the loop has exited, Seen is exactly the set of addresses
    reachable from the seed through the neighbour lists of successfully
    visited addresses: it holds the seed and every neighbour reported by a
    successfully visited member, and nothing else. *)
Theorem seen_is_reach_closure w e seed_ip l f :
  crawl w (enter e seed_ip) l f → finished f →
  (∀ a, a ∈ seen_switches f ↔ reach w seed_ip a)
  ∧ seed_ip ∈ seen_switches f
  ∧ (∀ a r n, a ∈ seen_switches f → attempt w a = Some r →
              n ∈ neighbor_ips r → n ∈ seen_switches f).
Proof.
  intros Hc Hfin. pose proof (crawl_explored w _ _ _ _ Hc) as Hex.
  pose proof (finished_seen_reach w e seed_ip f Hex Hfin) as Hreach.
  split; [done|]. split.
  - apply Hreach. constructor.
  - intros a r n Ha Hr Hn. apply Hreach. apply Hreach in Ha.
    by apply (reach_neighbor _ _ a r).
Qed.

Lemma seen_is_reach_closure_witness :
  let w := mock_world net_star in
  let e := NetworkDiscoveryManager.init in
  let l := ["10.0.0.1"; "10.0.0.3"; "10.0.0.2"] in
  let f := visited_all w l (enter e "10.0.0.1") in
  finished f
  ∧ seen_switches f = {["10.0.0.1"; "10.0.0.2"; "10.0.0.3"]}
  ∧ ∀ a, a ∈ seen_switches f ↔ reach w "10.0.0.1" a.
Proof.
  intros w e l f.
  assert (finished f) as Hfin by (vm_compute; reflexivity).
  assert (crawl w (enter e "10.0.0.1") l f) as Hc
    by (apply trace_ok_crawl; vm_compute; reflexivity).
  split; [done|]. split; [vm_compute; reflexivity|].
  apply (seen_is_reach_closure w e "10.0.0.1" l f Hc Hfin).
Defined.

(** X2: when the loop has exited, Failed holds what it held before the run
    together with the reachable addresses whose visit failed, and
    Discovered what it held before together with the address fields of the
    records of the reachable addresses whose visit succeeded. *)
Theorem run_outcome w e seed_ip l f :
  crawl w (enter e seed_ip) l f → finished f →
  (∀ x, x ∈ failed f ↔
        x ∈ NetworkDiscoveryManager.failed_switches e
        ∨ (reach w seed_ip x ∧ attempt w x = None))
  ∧ (∀ x, x ∈ discovered f ↔
          x ∈ NetworkDiscoveryManager.discovered_switches e
          ∨ ∃ a r, reach w seed_ip a ∧ attempt w a = Some r ∧ SwitchInfo.ip r = x).
Proof.
  intros Hc Hfin. pose proof (crawl_explored w _ _ _ _ Hc) as Hex.
  pose proof (finished_seen_reach w e seed_ip f Hex Hfin) as Hreach.
  destruct Hex as [_ _ _ Hd Hf _]. split; intros x.
  - rewrite Hf, Hreach. done.
  - rewrite Hd. split; (intros [?|(a & r & Ha & Hr)]; [by left|]);
      right; exists a, r; (split; [by apply Hreach|done]).
Qed.

Lemma run_outcome_witness :
  let w := mock_world net_dead_end in
  let e := NetworkDiscoveryManager.init in
  let l := ["10.0.0.1"; "10.0.0.2"] in
  let f := visited_all w l (enter e "10.0.0.1") in
  finished f
  ∧ failed f = {["10.0.0.2"]}
  ∧ ∀ x, x ∈ failed f ↔
         x ∈ NetworkDiscoveryManager.failed_switches e
         ∨ (reach w "10.0.0.1" x ∧ attempt w x = None).
Proof.
  intros w e l f.
  assert (finished f) as Hfin by (vm_compute; reflexivity).
  assert (crawl w (enter e "10.0.0.1") l f) as Hc
    by (apply trace_ok_crawl; vm_compute; reflexivity).
  split; [done|]. split; [vm_compute; reflexivity|].
  apply (run_outcome w e "10.0.0.1" l f Hc Hfin).
Defined.

Lemma counter_visited w a f : counter (visited w a f) = S (counter f).
Proof. unfold visited. by destruct (attempt w a). Qed.

Lemma crawl_counter w f l f' :
  crawl w f l f' → counter f' = counter f + length l.
Proof.
  induction 1 as [|f a f1 l f2 Ha Hit _ IH]; [simpl; lia|].
  rewrite iteration_visited in Hit. injection Hit as <-.
  rewrite IH, counter_visited. simpl. lia.
Qed.

(** X3: the counter the loop logs is the number of passes made, and each
    pass is for a different address: after any number of passes it equals
    the size of Seen. *)
Theorem counter_counts_seen w e seed_ip l f :
  crawl w (enter e seed_ip) l f →
  counter f = length l ∧ counter f = size (seen_switches f).
Proof.
  intros Hc. pose proof (crawl_counter w _ _ _ Hc) as Hn. simpl in Hn.
  split; [done|].
  destruct (crawl_trace w _ _ _ Hc (worklist_ok_enter e seed_ip))
    as (Hnd & _ & -> & _).
  simpl. rewrite Hn. rewrite (left_id_L ∅ (∪)).
  by rewrite size_list_to_set.
Qed.

Lemma counter_counts_seen_witness :
  let w := mock_world net_cycle in
  let l := ["10.0.0.1"; "10.0.0.2"] in
  let f := visited_all w l (enter NetworkDiscoveryManager.init "10.0.0.1") in
  counter f = 2 ∧ size (seen_switches f) = 2.
Proof.
  intros w l f.
  assert (crawl w (enter NetworkDiscoveryManager.init "10.0.0.1") l f) as Hc
    by (apply trace_ok_crawl; vm_compute; reflexivity).
  destruct (counter_counts_seen w _ _ l f Hc) as [H1 H2].
  split; [exact H1|]. rewrite <- H2. exact H1.
Defined.

(** X4: a seed whose visit fails, or succeeds reporting no neighbour other
    than the seed itself, ends the crawl after one pass: the only complete
    trace is [[seed]], Seen is {seed}, and the loop function returns that
    frame under any pop policy with fuel for one pass. *)
Theorem lone_seed w e seed_ip :
  stays_within w {[seed_ip]} seed_ip →
  (∀ l f, crawl w (enter e seed_ip) l f → finished f →
          l = [seed_ip] ∧ f = visited w seed_ip (enter e seed_ip)
          ∧ seen_switches f = {[seed_ip]})
  ∧ (∀ (p : PopPolicy) fuel, 1 ≤ fuel →
       _discover_switches_iterative w p fuel e seed_ip
       = Some (Normal tt, visited w seed_ip (enter e seed_ip))).
Proof.
  intros Hlone.
  assert (candidate_switches (visited w seed_ip (enter e seed_ip)) = ∅) as Hcand.
  { rewrite visited_candidate. unfold stays_within in Hlone. simpl.
    destruct (attempt w seed_ip); set_solver. }
  assert (∀ l f, crawl w (enter e seed_ip) l f → finished f →
            l = [seed_ip] ∧ f = visited w seed_ip (enter e seed_ip)
            ∧ seen_switches f = {[seed_ip]}) as Hall.
  { intros l f Hc Hfin. unfold finished in Hfin. destruct l as [|a l].
    { apply crawl_nil_inv in Hc as ->. simpl in Hfin. set_solver. }
    apply crawl_cons_inv in Hc as [Ha Hc]. simpl in Ha.
    assert (a = seed_ip) as -> by set_solver.
    destruct l as [|b l].
    - apply crawl_nil_inv in Hc as ->. split; [done|]. split; [done|].
      rewrite visited_seen. simpl. set_solver.
    - apply crawl_cons_inv in Hc as [Hb _]. rewrite Hcand in Hb. set_solver. }
  split; [done|]. intros p fuel Hfuel.
  destruct (discover_switches_total w p {[seed_ip]} fuel e seed_ip)
    as (l & f & Hrun & Hc & Hfin).
  - set_solver.
  - intros a Ha. by assert (a = seed_ip) as -> by set_solver.
  - by rewrite size_singleton.
  - by destruct (Hall l f Hc Hfin) as (_ & -> & _).
Qed.

Lemma lone_seed_witness :
  let w := mock_world net_dark in
  let seed_ip := "10.0.0.1" in
  let e := NetworkDiscoveryManager.init in
  stays_within w {[seed_ip]} seed_ip
  ∧ _discover_switches_iterative w pop_last 1 e seed_ip
    = Some (Normal tt, visited w seed_ip (enter e seed_ip))
  ∧ failed (visited w seed_ip (enter e seed_ip)) = {[seed_ip]}
  ∧ switches (visited w seed_ip (enter e seed_ip)) = ∅.
Proof.
  intros w seed_ip e.
  assert (stays_within w {[seed_ip]} seed_ip) as H
    by (apply (bool_decide_unpack _); vm_compute; exact I).
  split; [exact H|]. split.
  - apply (lone_seed w e seed_ip H). lia.
  - split; vm_compute; reflexivity.
Defined.

(** ** The crawl: probe results that cannot be used *)

(** X5: when the probe returns without a vendor or without credentials
    ([None], the empty string or the empty dict), the pass puts the address
    in Failed and enqueues nothing, leaving Discovered and the topology as
    they were; unless closing the detection session raises, the [try] block
    ends normally, no exception being involved. *)
Theorem probe_without_vendor_or_credentials w a f vendor ssh_client credentials :
  detect_switch_type w a = Normal (vendor, ssh_client, credentials) →
  truthy_dict credentials = false ∨ truthy_str vendor = false →
  iteration w a f = (Normal tt, visited_failed a f)
  ∧ (from_option disconnect (Normal tt) ssh_client = Normal tt →
     ∀ f0, try_block w a f0 = (Normal tt, self_failed_add a f0)).
Proof.
  intros Hd Hfalsy.
  assert (attempt w a = None) as Hnone.
  { unfold attempt. rewrite Hd.
    destruct (from_option disconnect (Normal ()) ssh_client); [|done].
    by destruct Hfalsy as [-> | ->]; [|rewrite andb_false_r]. }
  split; [rewrite iteration_visited; unfold visited; by rewrite Hnone|].
  intros Hs f0. unfold try_block. run_M. rewrite Hd. simpl.
  destruct ssh_client as [[d]|]; simpl in *; [subst d; simpl|].
  all: destruct (truthy_dict credentials) eqn:Hc, (truthy_str vendor) eqn:Hv;
    simpl; try same_frame.
  all: by destruct Hfalsy.
Qed.

Lemma probe_without_vendor_or_credentials_witness :
  let w := mock_world net_dark in
  let a := "10.0.0.1" in
  let f := enter NetworkDiscoveryManager.init a in
  detect_switch_type w a = Normal (None, None, None)
  ∧ iteration w a f = (Normal tt, visited_failed a f)
  ∧ try_block w a f = (Normal tt, self_failed_add a f).
Proof.
  intros w a f.
  assert (detect_switch_type w a = Normal (None, None, None)) as Hd by reflexivity.
  destruct (probe_without_vendor_or_credentials w a f None None None Hd)
    as [H1 H2]; [by left|].
  split; [exact Hd|]. split; [exact H1|]. by apply H2.
Defined.



(** ** The statistics: the histogram accounts for every switch *)

Lemma histogram_total_insert (h : gmap string nat) t n :
  h !! t = None → histogram_total (<[t := n]> h) = n + histogram_total h.
Proof.
  intros Hnone. unfold histogram_total.
  rewrite map_fold_insert_L; [done| |done]. intros; lia.
Qed.

Lemma histogram_total_incr (h : gmap string nat) t :
  histogram_total (<[t := default 0 (h !! t) + 1]> h) = histogram_total h + 1.
Proof.
  destruct (h !! t) as [n|] eqn:Ht; simpl.
  - rewrite <- (insert_delete_eq h t (n + 1)).
    rewrite <- (insert_id h t n Ht) at 2.
    rewrite <- (insert_delete_eq h t n).
    rewrite !histogram_total_insert by apply lookup_delete_eq. lia.
  - rewrite histogram_total_insert by done. lia.
Qed.

Lemma histogram_total_foldl stats l :
  histogram_total (switch_types (foldl count_switch stats l))
  = histogram_total (switch_types stats) + length l.
Proof.
  revert stats. induction l as [|r l IH]; intros stats; simpl; [lia|].
  rewrite IH. simpl. rewrite histogram_total_incr. lia.
Qed.

(** X7: the counts of the vendor histogram add up to [total_switches]:
    every stored record is counted in exactly one bucket. *)
Theorem histogram_accounts_for_all (e : NetworkDiscoveryManager.t) :
  histogram_total (switch_types (get_topology_stats e))
  = total_switches (get_topology_stats e).
Proof.
  destruct (get_topology_stats_counted e) as [Htot _ _ _ _ _]. simpl in Htot.
  rewrite Htot. unfold get_topology_stats. rewrite histogram_total_foldl. simpl.
  unfold histogram_total at 1. rewrite map_fold_empty. unfold dict_values.
  by rewrite length_fmap, length_map_to_list.
Qed.

(** ** [parse_vlan_ports_table]: the header *)

Lemma startswith_nil_false p c : Vlan.startswith "" (String c p) = false.
Proof. done. Qed.

Lemma header_line_nonempty line :
  Vlan.startswith (Vlan.strip line) "Interface" = true → line ≠ "".
Proof. by intros H ->. Qed.

Lemma find_port_line_first pre line post :
  Forall (λ l, Vlan.startswith (Vlan.strip l) "Interface" = false) pre →
  Vlan.startswith (Vlan.strip line) "Interface" = true →
  Vlan.find_port_line (pre ++ line :: post) = Some line.
Proof.
  intros Hpre Hline. induction Hpre as [|l pre Hl _ IH]; simpl.
  - by rewrite Hline.
  - by rewrite Hl.
Qed.

Lemma find_port_line_Some lines line :
  Vlan.find_port_line lines = Some line →
  Vlan.startswith (Vlan.strip line) "Interface" = true ∧ line ∈ lines.
Proof.
  induction lines as [|l lines IH]; simpl; [done|].
  destruct (Vlan.startswith (Vlan.strip l) "Interface") eqn:Hl.
  - intros [= <-]. split; [done|]. by left.
  - intros [H1 H2]%IH. split; [done|]. by right.
Qed.

(** The function once the header line is known. *)
Lemma parse_table_with_header lines line :
  Vlan.find_port_line lines = Some line →
  Vlan.parse_vlan_ports_table lines
  = if (Vlan.find line ":"%char =? -1)%Z
    then Vlan.AnsibleFilterError "Malformed port header line"
    else Vlan.Return
           (foldl (Vlan.parse_line (header_ports line))
                  (empty_membership (header_ports line)) lines).
Proof.
  intros Hfind. unfold Vlan.parse_vlan_ports_table. rewrite Hfind.
  destruct (find_port_line_Some _ _ Hfind) as [Hhdr _].
  apply header_line_nonempty in Hhdr. by destruct line.
Qed.

Lemma parse_table_returns lines m :
  Vlan.parse_vlan_ports_table lines = Vlan.Return m →
  ∃ line, Vlan.find_port_line lines = Some line
    ∧ Vlan.find line ":"%char ≠ (-1)%Z
    ∧ m = foldl (Vlan.parse_line (header_ports line))
                (empty_membership (header_ports line)) lines.
Proof.
  destruct (Vlan.find_port_line lines) as [line|] eqn:Hfind.
  - rewrite (parse_table_with_header _ _ Hfind).
    destruct (Z.eqb_spec (Vlan.find line ":"%char) (-1)); [done|].
    intros [= <-]. by exists line.
  - unfold Vlan.parse_vlan_ports_table. by rewrite Hfind.
Qed.

(** X8: the first line whose stripped form starts with ["Interface"] is
    the header, whatever follows it.  Without a colon in that line the
    function raises "Malformed port header line"; with one it returns a
    mapping. *)
Theorem ports_table_outcome pre line post :
  Forall (λ l, Vlan.startswith (Vlan.strip l) "Interface" = false) pre →
  Vlan.startswith (Vlan.strip line) "Interface" = true →
  (Vlan.find line ":"%char = (-1)%Z →
   Vlan.parse_vlan_ports_table (pre ++ line :: post)
   = Vlan.AnsibleFilterError "Malformed port header line")
  ∧ (Vlan.find line ":"%char ≠ (-1)%Z →
     Vlan.parse_vlan_ports_table (pre ++ line :: post)
     = Vlan.Return
         (foldl (Vlan.parse_line (header_ports line))
                (empty_membership (header_ports line)) (pre ++ line :: post))).
Proof.
  intros Hpre Hline.
  rewrite (parse_table_with_header _ line) by by apply find_port_line_first.
  split; intros Hc.
  - by rewrite Hc.
  - by destruct (Z.eqb_spec (Vlan.find line ":"%char) (-1)).
Qed.

Lemma ports_table_outcome_witness :
  let pre := ["VLAN Port membership"; ""] in
  let line := "Interface without colon" in
  let post := ["Interface: 12" ] in
  (Forall (λ l, Vlan.startswith (Vlan.strip l) "Interface" = false) pre
   ∧ Vlan.startswith (Vlan.strip line) "Interface" = true
   ∧ Vlan.find line ":"%char = (-1)%Z)
  ∧ Vlan.parse_vlan_ports_table (pre ++ line :: post)
    = Vlan.AnsibleFilterError "Malformed port header line".
Proof.
  intros pre line post.
  assert (Forall (λ l, Vlan.startswith (Vlan.strip l) "Interface" = false) pre)
    as Hpre by (apply (bool_decide_unpack _); vm_compute; exact I).
  assert (Vlan.startswith (Vlan.strip line) "Interface" = true) as Hline
    by reflexivity.
  assert (Vlan.find line ":"%char = (-1)%Z) as Hc by reflexivity.
  split; [done|].
  by apply (ports_table_outcome pre line post Hpre Hline).
Defined.

(** ** [parse_vlan_ports_table]: the port names *)

Lemma port_numbers_from_spec i cs p :
  p ∈ Vlan.port_numbers_from i cs ↔
  ∃ j c, cs !! j = Some c ∧ Vlan.isdigit c = true ∧ p = pretty (i + j + 1).
Proof.
  revert i. induction cs as [|c cs IH]; intros i; simpl.
  - split; [by intros ?%elem_of_nil|]. by intros (j & c & ? & _).
  - rewrite elem_of_app, IH. split.
    + intros [Hp|(j & c' & Hj & Hd & ->)].
      * destruct (Vlan.isdigit c) eqn:Hc; [|by apply elem_of_nil in Hp].
        apply list_elem_of_singleton in Hp as ->. exists 0, c.
        split; [done|]. split; [done|]. f_equal. lia.
      * exists (S j), c'. split; [done|]. split; [done|]. f_equal. lia.
    + intros ([|j] & c' & Hj & Hd & ->); simpl in Hj.
      * injection Hj as <-. left. rewrite Hd. apply list_elem_of_singleton.
        f_equal. lia.
      * right. exists j, c'. split; [done|]. split; [done|]. f_equal. lia.
Qed.

Lemma port_numbers_from_NoDup i cs : NoDup (Vlan.port_numbers_from i cs).
Proof.
  revert i. induction cs as [|c cs IH]; intros i; simpl; [constructor|].
  destruct (Vlan.isdigit c); simpl; [|done].
  constructor; [|done].
  intros (j & c' & _ & _ & Heq)%port_numbers_from_spec.
  apply (inj pretty) in Heq. lia.
Qed.

Lemma marked_subset mem ports p : p ∈ marked mem ports → p ∈ ports.
Proof.
  revert ports. induction mem as [|s mem IH]; intros [|q ports]; simpl;
    try by intros ?%elem_of_nil.
  case_bool_decide.
  - intros [->|H']%elem_of_cons; [by left|]. right. by apply IH.
  - intros H'. right. by apply IH.
Qed.

Lemma marked_NoDup mem ports : NoDup ports → NoDup (marked mem ports).
Proof.
  revert ports. induction mem as [|s mem IH]; intros [|q ports]; simpl;
    try (intros; constructor).
  intros [Hq Hnd]%NoDup_cons. case_bool_decide; [|by apply IH].
  constructor; [|by apply IH]. by intros ?%marked_subset.
Qed.

(** ** [parse_vlan_ports_table]: one membership word *)

Lemma mark_ports_vlans v mem ports m k :
  Vlan.vlans_to_ports (Vlan.mark_ports v mem ports m) !! k
  = if decide (k = v)
    then (λ l, l ++ marked mem ports) <$> Vlan.vlans_to_ports m !! k
    else Vlan.vlans_to_ports m !! k.
Proof.
  revert ports m. induction mem as [|s mem IH]; intros [|q ports] m; simpl;
    try (case_decide; [|done];
         destruct (Vlan.vlans_to_ports m !! k); simpl; by rewrite ?app_nil_r).
  rewrite IH. case_bool_decide; simpl; [|done].
  case_decide as Hk; [subst k|by rewrite lookup_alter_ne].
  rewrite lookup_alter_eq.
  destruct (Vlan.vlans_to_ports m !! v); simpl; [|done].
  by rewrite <- app_assoc.
Qed.

Lemma mark_ports_ports v mem ports m p :
  NoDup ports →
  Vlan.ports_to_vlans (Vlan.mark_ports v mem ports m) !! p
  = if decide (p ∈ marked mem ports)
    then (λ l, l ++ [v]) <$> Vlan.ports_to_vlans m !! p
    else Vlan.ports_to_vlans m !! p.
Proof.
  revert ports m. induction mem as [|s mem IH]; intros [|q ports] m; simpl;
    try (intros _; first [done|by rewrite decide_False by apply not_elem_of_nil]).
  intros [Hq Hnd]%NoDup_cons. rewrite IH by done.
  case_bool_decide; simpl.
  - destruct (decide (p = q)) as [->|Hne].
    + rewrite decide_False by (by intros ?%marked_subset).
      rewrite decide_True by left. by rewrite lookup_alter_eq.
    + rewrite lookup_alter_ne by done.
      destruct (decide (p ∈ marked mem ports)).
      * by rewrite decide_True by by right.
      * rewrite decide_False; [done|]. by intros [?|?]%elem_of_cons.
  - done.
Qed.

Lemma parse_line_vlan_line ports m line :
  Vlan.parse_line ports m line
  = match vlan_line line with
    | Some (v, mem) =>
        Vlan.mark_ports v (Vlan.chars mem) ports
          (Vlan.mkMembership (Vlan.ports_to_vlans m)
                             (<[v := []]> (Vlan.vlans_to_ports m)))
    | None => m
    end.
Proof.
  unfold Vlan.parse_line, vlan_line.
  destruct (Vlan.strip line) as [|c rest]; [done|].
  destruct (Vlan.isdigit c); simpl; [|done].
  by destruct (length (Vlan.split line) <? 2)%nat.
Qed.

Lemma parse_line_vlans ports m line k :
  Vlan.vlans_to_ports (Vlan.parse_line ports m line) !! k
  = match vlan_line line with
    | Some (v, mem) =>
        if decide (k = v) then Some (marked (Vlan.chars mem) ports)
        else Vlan.vlans_to_ports m !! k
    | None => Vlan.vlans_to_ports m !! k
    end.
Proof.
  rewrite parse_line_vlan_line. destruct (vlan_line line) as [[v mem]|]; [|done].
  rewrite mark_ports_vlans. simpl. case_decide as Hk.
  - subst k. by rewrite lookup_insert_eq.
  - by rewrite lookup_insert_ne.
Qed.

Lemma parse_line_ports ports m line p :
  NoDup ports →
  Vlan.ports_to_vlans (Vlan.parse_line ports m line) !! p
  = (λ l, l ++ vlans_marking ports p [line]) <$> Vlan.ports_to_vlans m !! p.
Proof.
  intros Hnd. rewrite parse_line_vlan_line. unfold vlans_marking. simpl.
  destruct (vlan_line line) as [[v mem]|]; simpl.
  - rewrite mark_ports_ports by done. simpl.
    destruct (decide (p ∈ marked (Vlan.chars mem) ports)); simpl; [done|].
    destruct (Vlan.ports_to_vlans m !! p); simpl; by rewrite ?app_nil_r.
  - destruct (Vlan.ports_to_vlans m !! p); simpl; by rewrite ?app_nil_r.
Qed.

Lemma foldl_parse_line_ports ports m lines p :
  NoDup ports →
  Vlan.ports_to_vlans (foldl (Vlan.parse_line ports) m lines) !! p
  = (λ l, l ++ vlans_marking ports p lines) <$> Vlan.ports_to_vlans m !! p.
Proof.
  intros Hnd. revert m. induction lines as [|line lines IH]; intros m; simpl.
  - destruct (Vlan.ports_to_vlans m !! p); simpl; by rewrite ?app_nil_r.
  - rewrite IH, parse_line_ports by done.
    destruct (Vlan.ports_to_vlans m !! p); simpl; [|done].
    f_equal. rewrite <- app_assoc. f_equal.
    unfold vlans_marking. simpl.
    by destruct (vlan_line line) as [[v mem]|]; [case_decide|].
Qed.

Lemma empty_membership_ports ports p :
  Vlan.ports_to_vlans (empty_membership ports) !! p
  = if decide (p ∈ ports) then Some [] else None.
Proof.
  unfold empty_membership. simpl. case_decide as Hp.
  - apply list_elem_of_lookup in Hp as [i Hi].
    destruct (list_to_map ((λ p0 : string, (p0, [])) <$> ports) !! p)
      as [l|] eqn:Hl.
    + apply elem_of_list_to_map_2 in Hl.
      apply list_elem_of_fmap in Hl as (q & [= -> ->] & _). done.
    + apply not_elem_of_list_to_map_2 in Hl. exfalso. apply Hl.
      rewrite <- list_fmap_compose. simpl.
      apply list_elem_of_fmap. exists p. split; [done|].
      by apply list_elem_of_lookup_2 in Hi.
  - apply not_elem_of_list_to_map_1. rewrite <- list_fmap_compose. simpl.
    by rewrite list_fmap_id.
Qed.

(** ** [parse_vlan_ports_table]: the two mappings *)

Lemma memberships_cons v line lines :
  memberships v (line :: lines)
  = match vlan_line line with
    | Some (v', mem) => if decide (v' = v) then mem :: memberships v lines
                        else memberships v lines
    | None => memberships v lines
    end.
Proof.
  unfold memberships. simpl.
  by destruct (vlan_line line) as [[v' mem]|]; [case_decide|].
Qed.

Lemma foldl_parse_line_vlans ports m lines k :
  Vlan.vlans_to_ports (foldl (Vlan.parse_line ports) m lines) !! k
  = match last_membership k lines with
    | Some mem => Some (marked (Vlan.chars mem) ports)
    | None => Vlan.vlans_to_ports m !! k
    end.
Proof.
  unfold last_membership. revert m.
  induction lines as [|line lines IH]; intros m; [done|].
  rewrite memberships_cons. simpl foldl. rewrite IH, parse_line_vlans.
  destruct (vlan_line line) as [[v mem]|]; [|done].
  destruct (decide (v = k)) as [->|Hne].
  - rewrite last_cons, decide_True by done.
    by destruct (last (memberships k lines)).
  - by rewrite decide_False by done.
Qed.

Lemma memberships_elem v mem lines :
  mem ∈ memberships v lines ↔ ∃ line, line ∈ lines ∧ vlan_line line = Some (v, mem).
Proof.
  unfold memberships. rewrite list_elem_of_omap. split.
  - intros (line & Hin & Hl). exists line. split; [done|].
    destruct (vlan_line line) as [[v' mem']|]; [|done].
    case_decide; [|done]. by simplify_eq.
  - intros (line & Hin & Hl). exists line. split; [done|].
    by rewrite Hl, decide_True.
Qed.

Lemma vlans_marking_elem ports p v lines :
  v ∈ vlans_marking ports p lines ↔
  ∃ line mem, line ∈ lines ∧ vlan_line line = Some (v, mem)
              ∧ p ∈ marked (Vlan.chars mem) ports.
Proof.
  unfold vlans_marking. rewrite list_elem_of_omap. split.
  - intros (line & Hin & Hl).
    destruct (vlan_line line) as [[v' mem']|] eqn:Hv; [|done].
    case_decide; [|done]. simplify_eq. by exists line, mem'.
  - intros (line & mem & Hin & Hl & Hp). exists line. split; [done|].
    by rewrite Hl, decide_True.
Qed.

Lemma last_membership_unique v mem line lines :
  NoDup (vlan_ids lines) → line ∈ lines → vlan_line line = Some (v, mem) →
  last_membership v lines = Some mem.
Proof.
  unfold last_membership. induction lines as [|l lines IH]; [by intros _ ?%elem_of_nil|].
  intros Hnd Hin Hl. rewrite memberships_cons. unfold vlan_ids in Hnd.
  simpl in Hnd. fold (vlan_ids lines) in Hnd.
  apply elem_of_cons in Hin as [<-|Hin].
  - rewrite Hl in Hnd |- *. simpl in Hnd. rewrite decide_True by done.
    apply NoDup_cons in Hnd as [Hv _].
    assert (memberships v lines = []) as ->; [|done].
    apply elem_of_nil_inv. intros mem' (l' & Hl' & Hvl)%memberships_elem.
    apply Hv. unfold vlan_ids. apply list_elem_of_omap. exists l'.
    by rewrite Hvl.
  - assert (NoDup (vlan_ids lines)) as Hnd'.
    { destruct (vlan_line l) as [[v' mem']|]; simpl in Hnd; [|done].
      by apply NoDup_cons in Hnd as [_ ?]. }
    specialize (IH Hnd' Hin Hl).
    destruct (vlan_line l) as [[v' mem']|]; [|done].
    case_decide; [|done]. rewrite last_cons. by rewrite IH.
Qed.

(** X9: in a returned mapping the keys of [ports_to_vlans] are the decimal
    numbers of the positions (from 1) that hold a digit in the header text
    after the colon, one key for each such position. *)
Theorem ports_table_keys lines m :
  Vlan.parse_vlan_ports_table lines = Vlan.Return m →
  ∃ line, Vlan.find_port_line lines = Some line
    ∧ dom (Vlan.ports_to_vlans m) = list_to_set (header_ports line)
    ∧ NoDup (header_ports line)
    ∧ (∀ p, p ∈ header_ports line ↔
            ∃ j c, header_text line !! j = Some c ∧ Vlan.isdigit c = true
                   ∧ p = pretty (j + 1)).
Proof.
  intros (line & Hfind & _ & ->)%parse_table_returns. exists line.
  split; [done|]. split; [|split].
  - apply set_eq. intros p. rewrite elem_of_dom, elem_of_list_to_set.
    rewrite foldl_parse_line_ports by apply port_numbers_from_NoDup.
    rewrite empty_membership_ports. case_decide; simpl; [by split; eauto|].
    split; [by intros [? ?]|done].
  - apply port_numbers_from_NoDup.
  - intros p. unfold header_ports. fold (header_text line).
    by rewrite port_numbers_from_spec.
Qed.

Lemma ports_table_keys_witness :
  ∃ m, Vlan.parse_vlan_ports_table sample_table = Vlan.Return m
    ∧ dom (Vlan.ports_to_vlans m) = {["1"; "2"; "3"; "4"]}.
Proof.
  eexists. split; [vm_compute; reflexivity|].
  match goal with |- dom (Vlan.ports_to_vlans ?m) = _ =>
    destruct (ports_table_keys sample_table m) as (line & Hfind & Hdom & _);
      [vm_compute; reflexivity|]
  end.
  injection Hfind as <-. rewrite Hdom. vm_compute. reflexivity.
Defined.

(** The two mappings of a returned result, key by key. *)
Lemma ports_to_vlans_lookup lines m :
  Vlan.parse_vlan_ports_table lines = Vlan.Return m →
  ∃ line, Vlan.find_port_line lines = Some line
    ∧ ∀ p, Vlan.ports_to_vlans m !! p
           = if decide (p ∈ header_ports line)
             then Some (vlans_marking (header_ports line) p lines)
             else None.
Proof.
  intros (line & Hfind & _ & ->)%parse_table_returns. exists line.
  split; [done|]. intros p.
  rewrite foldl_parse_line_ports by apply port_numbers_from_NoDup.
  rewrite empty_membership_ports. by case_decide.
Qed.

Lemma vlans_to_ports_lookup lines m :
  Vlan.parse_vlan_ports_table lines = Vlan.Return m →
  ∃ line, Vlan.find_port_line lines = Some line
    ∧ ∀ v, Vlan.vlans_to_ports m !! v
           = (λ mem, marked (Vlan.chars mem) (header_ports line))
               <$> last_membership v lines.
Proof.
  intros (line & Hfind & _ & ->)%parse_table_returns. exists line.
  split; [done|]. intros v. rewrite foldl_parse_line_vlans.
  by destruct (last_membership v lines).
Qed.

(** X10: in a returned mapping each port maps to the VLAN ids, in the order
    of the lines, of the membership lines that hold [T] or [U] in the
    port's column; a VLAN id occurs once for each such line, and [F], [-]
    and any other character mark nothing. *)
Theorem ports_to_vlans_spec lines m :
  Vlan.parse_vlan_ports_table lines = Vlan.Return m →
  ∃ line, Vlan.find_port_line lines = Some line
    ∧ ∀ p, Vlan.ports_to_vlans m !! p
           = if decide (p ∈ header_ports line)
             then Some (vlans_marking (header_ports line) p lines)
             else None.
Proof. apply ports_to_vlans_lookup. Qed.

Lemma ports_to_vlans_spec_witness :
  ∃ m, Vlan.parse_vlan_ports_table sample_table = Vlan.Return m
    ∧ Vlan.ports_to_vlans m !! "4" = Some ["1"; "20"]
    ∧ Vlan.ports_to_vlans m !! "3" = Some []
    ∧ Vlan.ports_to_vlans m !! "5" = None.
Proof.
  eexists. split; [vm_compute; reflexivity|].
  match goal with |- Vlan.ports_to_vlans ?m !! _ = _ ∧ _ =>
    destruct (ports_to_vlans_spec sample_table m) as (line & Hfind & Hp);
      [vm_compute; reflexivity|]
  end.
  injection Hfind as <-. rewrite !Hp. vm_compute. done.
Defined.

(** X11: in a returned mapping [vlans_to_ports] has a key for each VLAN id
    that starts a membership line, and none else; the value is the list of
    ports marked by the last line for that id, in header order: an earlier
    line for the same id is overwritten. *)
Theorem vlans_to_ports_spec lines m :
  Vlan.parse_vlan_ports_table lines = Vlan.Return m →
  ∃ line, Vlan.find_port_line lines = Some line
    ∧ ∀ v, Vlan.vlans_to_ports m !! v
           = (λ mem, marked (Vlan.chars mem) (header_ports line))
               <$> last_membership v lines.
Proof. apply vlans_to_ports_lookup. Qed.

Lemma vlans_to_ports_spec_witness :
  ∃ m, Vlan.parse_vlan_ports_table (sample_table ++ ["  20   T---"])
       = Vlan.Return m
    ∧ Vlan.vlans_to_ports m !! "1" = Some ["1"; "2"; "4"]
    ∧ Vlan.vlans_to_ports m !! "20" = Some ["1"]
    ∧ Vlan.vlans_to_ports m !! "Interface" = None.
Proof.
  eexists. split; [vm_compute; reflexivity|].
  match goal with |- Vlan.vlans_to_ports ?m !! _ = _ ∧ _ =>
    destruct (vlans_to_ports_spec (sample_table ++ ["  20   T---"]) m)
      as (line & Hfind & Hv); [vm_compute; reflexivity|]
  end.
  injection Hfind as <-. rewrite !Hv. vm_compute. done.
Defined.

(** X12: the two mappings of a returned result agree in one direction
    always: a port listed under a VLAN is a key of [ports_to_vlans] and has
    that VLAN in its list.  They agree in the other direction when no VLAN
    id starts two membership lines. *)
Theorem mappings_consistent lines m :
  Vlan.parse_vlan_ports_table lines = Vlan.Return m →
  (∀ v ports p,
     Vlan.vlans_to_ports m !! v = Some ports → p ∈ ports →
     ∃ vlans, Vlan.ports_to_vlans m !! p = Some vlans ∧ v ∈ vlans)
  ∧ (NoDup (vlan_ids lines) →
     ∀ p vlans v,
       Vlan.ports_to_vlans m !! p = Some vlans → v ∈ vlans →
       ∃ ports, Vlan.vlans_to_ports m !! v = Some ports ∧ p ∈ ports).
Proof.
  intros Hret.
  destruct (ports_to_vlans_lookup _ _ Hret) as (line & Hfind & Hp).
  destruct (vlans_to_ports_lookup _ _ Hret) as (line' & Hfind' & Hv).
  assert (line' = line) as -> by congruence. split.
  - intros v ports p Hvp Hin. rewrite Hv in Hvp.
    destruct (last_membership v lines) as [mem|] eqn:Hlast; [|done].
    injection Hvp as <-.
    assert (mem ∈ memberships v lines) as (l & Hl & Hvl)%memberships_elem
      by by apply last_Some_elem_of.
    exists (vlans_marking (header_ports line) p lines). split.
    + rewrite Hp. by rewrite decide_True by by eapply marked_subset.
    + apply vlans_marking_elem. by exists l, mem.
  - intros Hnd p vlans v Hpv Hin. rewrite Hp in Hpv.
    case_decide; [|done]. injection Hpv as <-.
    apply vlans_marking_elem in Hin as (l & mem & Hl & Hvl & Hmark).
    exists (marked (Vlan.chars mem) (header_ports line)). split; [|done].
    by rewrite Hv, (last_membership_unique v mem l lines).
Qed.

Lemma mappings_consistent_witness :
  ∃ m, Vlan.parse_vlan_ports_table sample_table = Vlan.Return m
    ∧ NoDup (vlan_ids sample_table)
    ∧ (∃ vlans, Vlan.ports_to_vlans m !! "2" = Some vlans ∧ "20" ∈ vlans)
    ∧ (∃ ports, Vlan.vlans_to_ports m !! "20" = Some ports ∧ "2" ∈ ports).
Proof.
  eexists. split; [vm_compute; reflexivity|].
  assert (NoDup (vlan_ids sample_table)) as Hnd
    by (apply (bool_decide_unpack _); vm_compute; exact I).
  split; [exact Hnd|].
  match goal with |- (∃ _, Vlan.ports_to_vlans ?m !! _ = _ ∧ _) ∧ _ =>
    destruct (mappings_consistent sample_table m) as [Hfw Hbw];
      [vm_compute; reflexivity|];
    destruct (Hfw "20" ["2"; "4"] "2") as (vlans & H1 & H2)
  end.
  - vm_compute. reflexivity.
  - apply (bool_decide_unpack _). vm_compute. exact I.
  - split; [by exists vlans|]. by apply (Hbw Hnd "2" vlans "20").
Defined.

(** ** [parse_vlans]: what the entries look like *)

Lemma digits_prefix_decimal s :
  Forall (λ c, Vlan.isdecimal c = true) (Vlan.chars (Vlan.digits_prefix s)).
Proof.
  induction s as [|c s IH]; simpl; [constructor|].
  destruct (Vlan.isdecimal c) eqn:Hc; simpl; by constructor.
Qed.

Lemma findall_vlan_add_digits skip s :
  Forall (λ d, d ≠ "" ∧ Forall (λ c, Vlan.isdecimal c = true) (Vlan.chars d))
         (Vlan.findall_vlan_add skip s).
Proof.
  revert skip. induction s as [|c s IH]; intros skip; [constructor|].
  destruct skip as [|k]; [|apply IH].
  cbv beta iota delta [Vlan.findall_vlan_add]; fold Vlan.findall_vlan_add.
  destruct (Vlan.startswith (String c s) "vlan add "); [|apply IH].
  pose proof (digits_prefix_decimal (Vlan.slice_from 9 (String c s))) as Hd.
  destruct (Vlan.digits_prefix (Vlan.slice_from 9 (String c s))) as [|d ds];
    [apply IH|].
  constructor; [done|apply IH].
Qed.

(** X13: every entry [parse_vlans] returns has a [vlan_id] that is a
    non-empty string of decimal digits, as written after ["vlan add "]. *)
Theorem parse_vlans_ids_decimal (stdout_lines : list string) :
  Forall (λ e, Vlan.vlan_id e ≠ ""
               ∧ Forall (λ c, Vlan.isdecimal c = true)
                        (Vlan.chars (Vlan.vlan_id e)))
         (Vlan.parse_vlans stdout_lines).
Proof.
  unfold Vlan.parse_vlans.
  destruct (Vlan.search_block None (Vlan.join_lines stdout_lines)) as [block|];
    [|constructor].
  apply Forall_fmap. simpl.
  eapply Forall_impl; [apply findall_vlan_add_digits|]. done.
Qed.

Lemma isspace_not_empty_strip c s :
  Vlan.isspace c = false → Vlan.rstrip (String c s) = String c (Vlan.rstrip s).
Proof. intros Hc. simpl. destruct (Vlan.rstrip s); by rewrite ?Hc. Qed.

Lemma rstrip_idemp s : Vlan.rstrip (Vlan.rstrip s) = Vlan.rstrip s.
Proof.
  induction s as [|c s IH]; [done|]. simpl.
  destruct (Vlan.rstrip s) as [|d r] eqn:Hr.
  - destruct (Vlan.isspace c) eqn:Hc; [done|]. simpl. by rewrite Hc.
  - change (Vlan.rstrip (String c (String d r))) with
      (match Vlan.rstrip (String d r) with
       | EmptyString => if Vlan.isspace c then EmptyString else String c EmptyString
       | r' => String c r'
       end).
    by rewrite IH.
Qed.

Lemma lstrip_head s :
  Vlan.lstrip s = ""
  ∨ ∃ c t, Vlan.lstrip s = String c t ∧ Vlan.isspace c = false.
Proof.
  induction s as [|c s IH]; simpl; [by left|].
  destruct (Vlan.isspace c) eqn:Hc; [done|]. right. by exists c, s.
Qed.

Lemma strip_idemp s : Vlan.strip (Vlan.strip s) = Vlan.strip s.
Proof.
  unfold Vlan.strip. destruct (lstrip_head s) as [->|(c & t & -> & Hc)]; [done|].
  rewrite (isspace_not_empty_strip c t Hc). simpl. rewrite Hc.
  rewrite (isspace_not_empty_strip c _ Hc). by rewrite rstrip_idemp.
Qed.

Lemma lstrip_Forall (P : ascii → Prop) s :
  Forall P (Vlan.chars s) → Forall P (Vlan.chars (Vlan.lstrip s)).
Proof.
  induction s as [|c s IH]; simpl; [done|].
  intros [Hc Hs]%Forall_cons. destruct (Vlan.isspace c); [by apply IH|].
  by constructor.
Qed.

Lemma rstrip_Forall (P : ascii → Prop) s :
  Forall P (Vlan.chars s) → Forall P (Vlan.chars (Vlan.rstrip s)).
Proof.
  induction s as [|c s IH]; simpl; [done|].
  intros [Hc Hs]%Forall_cons. specialize (IH Hs).
  destruct (Vlan.rstrip s) as [|d r].
  - destruct (Vlan.isspace c); simpl; [constructor|by repeat constructor].
  - by apply Forall_cons.
Qed.

Lemma strip_Forall (P : ascii → Prop) s :
  Forall P (Vlan.chars s) → Forall P (Vlan.chars (Vlan.strip s)).
Proof. intros. by apply rstrip_Forall, lstrip_Forall. Qed.

Lemma line_prefix_one_line s : one_line (Vlan.line_prefix s).
Proof.
  unfold one_line. induction s as [|c s IH]; simpl; [constructor|].
  destruct (Ascii.eqb_spec c Vlan.newline); simpl; by constructor.
Qed.

Lemma match_name_one_line s d g len :
  Vlan.match_name s = Some (d, g, len) → one_line g.
Proof.
  unfold Vlan.match_name. destruct (Vlan.startswith s "name "); [|done].
  destruct (Vlan.digits_prefix (Vlan.slice_from 5 s)) as [|c ds]; [done|].
  set (after := Vlan.slice_from _ s).
  destruct (_ =? 0)%nat; [done|].
  destruct (Vlan.lstrip after) as [|a rest].
  - destruct (Vlan.last_start 0 after) as [[k from]|]; [|done].
    intros [= _ <- _]. apply line_prefix_one_line.
  - intros [= _ <- _]. apply (line_prefix_one_line (String a rest)).
Qed.

Lemma findall_name_one_line skip s :
  Forall (λ kv, one_line kv.2) (Vlan.findall_name skip s).
Proof.
  revert skip. induction s as [|c s IH]; intros skip; [constructor|].
  destruct skip as [|k]; [|apply IH].
  cbv beta iota delta [Vlan.findall_name]; fold Vlan.findall_name.
  destruct (Vlan.match_name (String c s)) as [[[d g] len]|] eqn:Hm; [|apply IH].
  constructor; [|apply IH]. simpl. by eapply match_name_one_line.
Qed.

Lemma dict_of_pairs_lookup pairs k v :
  Vlan.dict_of_pairs pairs !! k = Some v → (k, v) ∈ pairs.
Proof.
  unfold Vlan.dict_of_pairs.
  induction pairs as [|[k' v'] pairs IH] using rev_ind; simpl; [done|].
  rewrite foldl_app. simpl. rewrite elem_of_app, list_elem_of_singleton.
  destruct (decide (k' = k)) as [->|Hne].
  - rewrite lookup_insert_eq. intros [= ->]. by right.
  - rewrite lookup_insert_ne by done. intros ?%IH. by left.
Qed.

(** X14: the [name] of every entry [parse_vlans] returns is either absent
    or a non-empty string without leading or trailing whitespace and
    without a newline; a name that is blank after stripping is reported as
    absent. *)
Theorem parse_vlans_names_stripped (stdout_lines : list string) :
  Forall (λ e, match Vlan.name e with
               | None => True
               | Some n => n ≠ "" ∧ Vlan.strip n = n ∧ one_line n
               end)
         (Vlan.parse_vlans stdout_lines).
Proof.
  unfold Vlan.parse_vlans.
  destruct (Vlan.search_block None (Vlan.join_lines stdout_lines)) as [block|];
    [|constructor].
  apply Forall_fmap, Forall_forall. intros vlan _. simpl.
  unfold Vlan.name_of.
  destruct (Vlan.strip (default "" (Vlan.dict_of_pairs
              (Vlan.findall_name 0 block) !! vlan))) as [|c n] eqn:Hn; [done|].
  split; [done|]. rewrite <- Hn. split; [apply strip_idemp|].
  apply strip_Forall.
  destruct (Vlan.dict_of_pairs (Vlan.findall_name 0 block) !! vlan) as [g|] eqn:Hg;
    [|constructor].
  apply dict_of_pairs_lookup in Hg.
  pose proof (findall_name_one_line 0 block) as Hall.
  rewrite Forall_forall in Hall. by apply (Hall (vlan, g)).
Qed.

(** ** [parse_vlans]: where the block is found *)

Lemma append_cons c s t : String c s +:+ t = String c (s +:+ t).
Proof. done. Qed.

Lemma append_nil_l t : "" +:+ t = t.
Proof. done. Qed.

Lemma append_nil_r s : s +:+ "" = s.
Proof. induction s as [|c s IH]; [done|]. by rewrite append_cons, IH. Qed.

Lemma startswith_app_newline line R p :
  one_line p →
  Vlan.startswith (line +:+ String Vlan.newline R) p = Vlan.startswith line p.
Proof.
  unfold one_line. revert line. induction p as [|a p IH]; intros line Hp.
  - by destruct line.
  - simpl in Hp. apply Forall_cons in Hp as [Ha Hp].
    destruct line as [|b line]; rewrite ?append_cons, ?append_nil_l; simpl.
    + by apply Ascii.eqb_neq in Ha as ->.
    + destruct (Ascii.eqb a b); [by apply IH|done].
Qed.

Lemma last_char_one_line c s :
  c ≠ Vlan.newline → one_line s → last_char c s ≠ Vlan.newline.
Proof.
  unfold one_line. revert c. induction s as [|d s IH]; intros c Hc Hs; [done|].
  simpl in *. apply Forall_cons in Hs as [Hd Hs]. by apply IH.
Qed.

Lemma block_here_inside c s :
  c ≠ Vlan.newline → Vlan.block_here (Some c) s = None.
Proof.
  intros Hc. unfold Vlan.block_here.
  rewrite bool_decide_eq_false_2; [done|]. intros [?|[= ?]]; done.
Qed.

(** Inside a line nothing is found: the search moves to the line's end. *)
Lemma search_inside_line line c R :
  one_line line → c ≠ Vlan.newline →
  Vlan.search_block (Some c) (line +:+ R)
  = Vlan.search_block (Some (last_char c line)) R.
Proof.
  unfold one_line. revert c. induction line as [|d line IH]; intros c Hl Hc.
  - done.
  - simpl in Hl. apply Forall_cons in Hl as [Hd Hl].
    rewrite append_cons. simpl. rewrite block_here_inside by done. by apply IH.
Qed.

Lemma block_here_other prev line R :
  Vlan.startswith line "vlan database" = false →
  Vlan.block_here prev (line +:+ String Vlan.newline R) = None.
Proof.
  intros Hl. unfold Vlan.block_here.
  rewrite startswith_app_newline, Hl by (by repeat constructor).
  by rewrite andb_false_r.
Qed.

(** A line that does not start with ["vlan database"] is passed over. *)
Lemma search_skip_line prev line R :
  one_line line → Vlan.startswith line "vlan database" = false →
  Vlan.search_block prev (line +:+ String Vlan.newline R)
  = Vlan.search_block (Some Vlan.newline) R.
Proof.
  intros Hone Hl. destruct line as [|c line].
  - pose proof (block_here_other prev "" R Hl) as H.
    rewrite append_nil_l in H |- *. simpl. by rewrite H.
  - rewrite append_cons.
    cbv beta iota delta [Vlan.search_block]; fold Vlan.search_block.
    rewrite <- append_cons.
    rewrite block_here_other by done.
    unfold one_line in Hone. simpl in Hone. apply Forall_cons in Hone as [Hc Hone].
    rewrite search_inside_line by done. simpl.
    rewrite block_here_inside by by apply last_char_one_line. done.
Qed.

Lemma search_last_line prev line :
  one_line line → Vlan.startswith line "vlan database" = false →
  Vlan.search_block prev line = None.
Proof.
  intros Hone Hl. destruct line as [|c line].
  - simpl. unfold Vlan.block_here. by rewrite andb_false_r.
  - cbv beta iota delta [Vlan.search_block]; fold Vlan.search_block.
    unfold Vlan.block_here at 1. rewrite Hl, andb_false_r.
    unfold one_line in Hone. simpl in Hone. apply Forall_cons in Hone as [Hc Hone].
    rewrite <- (append_nil_r line).
    rewrite search_inside_line by done. simpl.
    unfold Vlan.block_here. by rewrite andb_false_r.
Qed.

Lemma join_lines_cons line line' rest :
  Vlan.join_lines (line :: line' :: rest)
  = line +:+ String Vlan.newline (Vlan.join_lines (line' :: rest)).
Proof. done. Qed.

Lemma search_skip_lines prev pre line rest :
  Forall one_line pre →
  Forall (λ l, Vlan.startswith l "vlan database" = false) pre →
  pre ≠ [] →
  Vlan.search_block prev (Vlan.join_lines (pre ++ line :: rest))
  = Vlan.search_block (Some Vlan.newline) (Vlan.join_lines (line :: rest)).
Proof.
  intros Hone Hpre. revert prev.
  induction pre as [|l pre IH]; intros prev Hne; [done|].
  apply Forall_cons in Hone as [Hl1 Hone]. apply Forall_cons in Hpre as [Hl2 Hpre].
  destruct pre as [|l' pre].
  - simpl app. rewrite join_lines_cons. by apply search_skip_line.
  - change ((l :: l' :: pre) ++ line :: rest)
      with (l :: l' :: (pre ++ line :: rest)).
    rewrite join_lines_cons, search_skip_line by done.
    by apply (IH Hone Hpre).
Qed.

(** X15: when no input line starts with ["vlan database"] (the lines
    holding no newline of their own), [parse_vlans] returns the empty
    list. *)
Theorem parse_vlans_without_header (stdout_lines : list string) :
  Forall one_line stdout_lines →
  Forall (λ l, Vlan.startswith l "vlan database" = false) stdout_lines →
  Vlan.parse_vlans stdout_lines = [].
Proof.
  intros Hone Hpre. unfold Vlan.parse_vlans.
  assert (∀ prev, Vlan.search_block prev (Vlan.join_lines stdout_lines) = None)
    as ->; [|done].
  induction stdout_lines as [|l lines IH]; intros prev.
  - simpl. unfold Vlan.block_here. by rewrite andb_false_r.
  - apply Forall_cons in Hone as [Hl1 Hone].
    apply Forall_cons in Hpre as [Hl2 Hpre].
    destruct lines as [|l' lines]; [by apply search_last_line|].
    rewrite join_lines_cons, search_skip_line by done. by apply IH.
Qed.

Lemma parse_vlans_without_header_witness :
  Forall one_line (docstring_before ++ docstring_body ++ docstring_after)
  ∧ Vlan.parse_vlans (docstring_before ++ docstring_body ++ docstring_after) = [].
Proof.
  assert (Forall one_line (docstring_before ++ docstring_body ++ docstring_after))
    as Hone by (apply (bool_decide_unpack _); vm_compute; exact I).
  split; [exact Hone|].
  apply (parse_vlans_without_header _ Hone).
  apply (bool_decide_unpack _). vm_compute. exact I.
Defined.

Lemma append_assoc s t u : (s +:+ t) +:+ u = s +:+ (t +:+ u).
Proof.
  induction s as [|c s IH]; [done|]. by rewrite !append_cons, IH.
Qed.

Lemma block_to_exit_inside c s :
  c ≠ Vlan.newline →
  Vlan.block_to_exit c s
  = match s with
    | String d s' =>
        if Vlan.in_block_class d then String d <$> Vlan.block_to_exit d s'
        else None
    | EmptyString => None
    end.
Proof.
  intros Hc. apply Ascii.eqb_neq in Hc. destruct s; simpl; by rewrite Hc.
Qed.

(** A line of class characters is taken whole into the block. *)
Lemma block_through_line c line R :
  c ≠ Vlan.newline → Forall block_char (Vlan.chars line) →
  Vlan.block_to_exit c (line +:+ String Vlan.newline R)
  = (λ b, line +:+ String Vlan.newline b) <$> Vlan.block_to_exit Vlan.newline R.
Proof.
  revert c. induction line as [|d line IH]; intros c Hc Hl.
  - rewrite append_nil_l, block_to_exit_inside by done.
    change (Vlan.in_block_class Vlan.newline) with true. simpl.
    by destruct (Vlan.block_to_exit Vlan.newline R).
  - simpl in Hl. apply Forall_cons in Hl as [[Hd1 Hd2] Hl].
    rewrite append_cons, block_to_exit_inside, Hd1, IH by done.
    by destruct (Vlan.block_to_exit Vlan.newline R).
Qed.

Lemma lstrip_app l R :
  Vlan.lstrip l ≠ "" → Vlan.lstrip (l +:+ R) = Vlan.lstrip l +:+ R.
Proof.
  induction l as [|c l IH]; [done|]. rewrite append_cons. simpl.
  destruct (Vlan.isspace c); [done|]. intros _. by rewrite append_cons.
Qed.

Lemma lstrip_one_line l : one_line l → one_line (Vlan.lstrip l).
Proof. apply lstrip_Forall. Qed.

Lemma slice_from_one_line n s : one_line s → one_line (Vlan.slice_from n s).
Proof.
  unfold one_line. revert s. induction n as [|n IH]; intros [|c s]; simpl; try done.
  intros [_ Hs]%Forall_cons. by apply IH.
Qed.

Lemma slice_from_app n u X :
  n ≤ String.length u →
  Vlan.slice_from n (u +:+ X) = Vlan.slice_from n u +:+ X.
Proof.
  revert u. induction n as [|n IH]; intros u Hn.
  - by destruct u.
  - destruct u as [|c u]; simpl in Hn; [lia|].
    rewrite append_cons. simpl. apply IH. lia.
Qed.

Lemma startswith_length u p :
  Vlan.startswith u p = true → String.length p ≤ String.length u.
Proof.
  revert u. induction p as [|a p IH]; intros u; simpl; [lia|].
  destruct u as [|b u]; [done|]. simpl.
  destruct (Ascii.eqb a b); [|done]. intros ?%IH. lia.
Qed.

Lemma blank_to_eol_app u R :
  one_line u →
  Vlan.blank_to_eol (u +:+ String Vlan.newline R) = Vlan.blank_to_eol u.
Proof.
  unfold one_line. induction u as [|c u IH]; intros Hu.
  - by rewrite append_nil_l.
  - simpl in Hu. apply Forall_cons in Hu as [Hc Hu]. rewrite append_cons. simpl.
    apply Ascii.eqb_neq in Hc as ->. destruct (Vlan.isspace c); [by apply IH|done].
Qed.

(** Whether a non-blank line is an exit line does not depend on what
    follows it. *)
Lemma exit_here_app l R :
  one_line l → Vlan.lstrip l ≠ "" →
  Vlan.exit_here (l +:+ String Vlan.newline R) = Vlan.exit_here l.
Proof.
  intros Hone Hl. unfold Vlan.exit_here. rewrite lstrip_app by done.
  rewrite startswith_app_newline by (by repeat constructor).
  destruct (Vlan.startswith (Vlan.lstrip l) "exit") eqn:He; [|done].
  rewrite !andb_true_l. apply startswith_length in He.
  change (String.length "exit") with 4 in He.
  rewrite slice_from_app by done.
  by apply blank_to_eol_app, slice_from_one_line, lstrip_one_line.
Qed.

(** The body lines are taken into the block up to the exit line. *)
Lemma block_body body T :
  Forall (λ l, Forall block_char (Vlan.chars l)
               ∧ Vlan.lstrip l ≠ "" ∧ Vlan.exit_here l = false) body →
  Vlan.exit_here T = true →
  Vlan.block_to_exit Vlan.newline (lines_text body +:+ T)
  = Some (lines_text body).
Proof.
  intros Hbody HT. induction Hbody as [|l body (Hcl & Hnb & Hex) _ IH].
  - rewrite append_nil_l. destruct T as [|c T]; [done|].
    cbv beta iota delta [Vlan.block_to_exit]; fold Vlan.block_to_exit.
    by rewrite HT.
  - simpl lines_text. rewrite append_assoc, append_cons.
    assert (one_line l) as Hone
      by (eapply Forall_impl; [exact Hcl|]; by intros c [_ ?]).
    destruct l as [|c l]; [done|].
    rewrite append_cons.
    cbv beta iota delta [Vlan.block_to_exit]; fold Vlan.block_to_exit.
    rewrite <- append_cons at 1. rewrite exit_here_app, Hex by done.
    rewrite andb_false_r.
    simpl in Hcl. apply Forall_cons in Hcl as [[Hc1 Hc2] Hcl].
    by rewrite Hc1, block_through_line, IH.
Qed.

Lemma join_lines_body body ex post :
  Vlan.join_lines (body ++ ex :: post)
  = lines_text body +:+ Vlan.join_lines (ex :: post).
Proof.
  induction body as [|l body IH]; [done|].
  simpl lines_text. rewrite append_assoc, append_cons, <- IH.
  by destruct body.
Qed.

Lemma exit_here_join ex post :
  one_line ex → Vlan.exit_here ex = true →
  Vlan.exit_here (Vlan.join_lines (ex :: post)) = true.
Proof.
  intros Hone Hex. destruct post as [|l post]; [done|].
  rewrite join_lines_cons, exit_here_app; [done..|].
  intros Hl. unfold Vlan.exit_here in Hex. by rewrite Hl in Hex.
Qed.

Lemma header_startswith y :
  Vlan.startswith ("vlan database" +:+ y) "vlan database" = true.
Proof. by destruct y. Qed.

Lemma header_slice y : Vlan.slice_from 13 ("vlan database" +:+ y) = y.
Proof. reflexivity. Qed.

Lemma block_here_header prev x body ex post :
  prev = None ∨ prev = Some Vlan.newline →
  Forall block_char (Vlan.chars x) →
  Forall (λ l, Forall block_char (Vlan.chars l)
               ∧ Vlan.lstrip l ≠ "" ∧ Vlan.exit_here l = false) body →
  one_line ex → Vlan.exit_here ex = true →
  Vlan.block_here prev
    (Vlan.join_lines (("vlan database" +:+ x) :: body ++ ex :: post))
  = Some (x +:+ String Vlan.newline (lines_text body)).
Proof.
  intros Hprev Hx Hbody Hone Hex.
  assert (Vlan.join_lines (("vlan database" +:+ x) :: body ++ ex :: post)
          = "vlan database" +:+ (x +:+ String Vlan.newline
              (lines_text body +:+ Vlan.join_lines (ex :: post)))) as ->.
  { rewrite <- join_lines_body, <- append_assoc. by destruct body. }
  unfold Vlan.block_here. rewrite bool_decide_eq_true_2 by done.
  rewrite header_startswith, header_slice. simpl andb. cbv iota.
  rewrite block_through_line by done.
  by rewrite block_body by auto using exit_here_join.
Qed.

Lemma search_block_here prev s block :
  Vlan.block_here prev s = Some block → Vlan.search_block prev s = Some block.
Proof. intros H. destruct s; simpl; by rewrite H. Qed.

(** X16: the input is made of lines without a newline in them that do
    not start with ["vlan database"]; then a line ["vlan database"]
    followed by [x], where [x] consists of characters of the pattern's
    class other than the newline; then body lines of such characters that
    are neither blank nor exit lines; then an exit line without a newline
    in it; then anything.  The block [parse_vlans] reads is [x] and the
    body lines: what stands before the header line and from the exit line
    on is ignored. *)
Theorem parse_vlans_reads_first_block pre x body ex post :
  Forall one_line pre →
  Forall (λ l, Vlan.startswith l "vlan database" = false) pre →
  Forall block_char (Vlan.chars x) →
  Forall (λ l, Forall block_char (Vlan.chars l)
               ∧ Vlan.lstrip l ≠ "" ∧ Vlan.exit_here l = false) body →
  one_line ex → Vlan.exit_here ex = true →
  Vlan.parse_vlans (pre ++ ("vlan database" +:+ x) :: body ++ ex :: post)
  = entries_of_block (x +:+ String Vlan.newline (lines_text body)).
Proof.
  intros Hone Hpre Hx Hbody Hex1 Hex2. unfold Vlan.parse_vlans.
  assert (Vlan.search_block None
            (Vlan.join_lines (pre ++ ("vlan database" +:+ x) :: body ++ ex :: post))
          = Some (x +:+ String Vlan.newline (lines_text body))) as ->; [|done].
  destruct pre as [|l pre].
  - simpl app. apply search_block_here. apply block_here_header; auto.
  - rewrite search_skip_lines by done.
    apply search_block_here. apply block_here_header; auto.
Qed.

Lemma parse_vlans_reads_first_block_witness :
  Vlan.exit_here "exit" = true
  ∧ Vlan.parse_vlans
      (docstring_before ++ "vlan database" :: docstring_body
         ++ "exit" :: docstring_after)
    = [ Vlan.mkVlanEntry "2" (Some "NWM"); Vlan.mkVlanEntry "8" (Some "RIS") ].
Proof.
  split; [reflexivity|].
  pose proof (parse_vlans_reads_first_block docstring_before "" docstring_body
                "exit" docstring_after) as H.
  change ("vlan database" +:+ "") with "vlan database" in H.
  rewrite H.
  - vm_compute. reflexivity.
  - apply (bool_decide_unpack _). vm_compute. exact I.
  - apply (bool_decide_unpack _). vm_compute. exact I.
  - constructor.
  - apply (bool_decide_unpack _). vm_compute. exact I.
  - apply (bool_decide_unpack _). vm_compute. exact I.
  - reflexivity.
Defined.

(** ** [parse_vlans]: a character outside the class *)

Lemma search_pass_line prev line R :
  one_line line →
  Vlan.block_here prev (line +:+ String Vlan.newline R) = None →
  Vlan.search_block prev (line +:+ String Vlan.newline R)
  = Vlan.search_block (Some Vlan.newline) R.
Proof.
  intros Hone Hnone. destruct line as [|c line].
  - rewrite append_nil_l in Hnone |- *. simpl. by rewrite Hnone.
  - rewrite append_cons.
    cbv beta iota delta [Vlan.search_block]; fold Vlan.search_block.
    rewrite <- append_cons. rewrite Hnone.
    unfold one_line in Hone. simpl in Hone. apply Forall_cons in Hone as [Hc Hone].
    rewrite search_inside_line by done. simpl.
    rewrite block_here_inside by by apply last_char_one_line. done.
Qed.

Lemma search_without_header prev lines :
  Forall one_line lines →
  Forall (λ l, Vlan.startswith l "vlan database" = false) lines →
  Vlan.search_block prev (Vlan.join_lines lines) = None.
Proof.
  intros Hone Hpre. revert prev.
  induction lines as [|l lines IH]; intros prev.
  - simpl. unfold Vlan.block_here. by rewrite andb_false_r.
  - apply Forall_cons in Hone as [Hl1 Hone].
    apply Forall_cons in Hpre as [Hl2 Hpre].
    destruct lines as [|l' lines]; [by apply search_last_line|].
    rewrite join_lines_cons, search_skip_line by done. by apply IH.
Qed.

Lemma isspace_in_block_class c :
  Vlan.isspace c = true → Vlan.in_block_class c = true.
Proof.
  intros Hc. unfold Vlan.in_block_class. rewrite Hc.
  by rewrite orb_true_r.
Qed.

Lemma blank_to_eol_class u :
  one_line u → Vlan.blank_to_eol u = true →
  Forall (λ c, Vlan.in_block_class c = true) (Vlan.chars u).
Proof.
  unfold one_line. induction u as [|c u IH]; simpl; [constructor|].
  intros [Hc Hu]%Forall_cons. apply Ascii.eqb_neq in Hc as ->.
  destruct (Vlan.isspace c) eqn:Hs; [|done].
  intros Hb. constructor; [by apply isspace_in_block_class|by apply IH].
Qed.

Lemma startswith_cons a p b s :
  Vlan.startswith (String b s) (String a p)
  = if Ascii.eqb a b then Vlan.startswith s p else false.
Proof. done. Qed.

(** An exit line consists of class characters only. *)
Lemma exit_line_class l :
  one_line l → Vlan.exit_here l = true →
  Forall (λ c, Vlan.in_block_class c = true) (Vlan.chars l).
Proof.
  unfold Vlan.exit_here. induction l as [|c l IH]; [constructor|].
  intros Hone. pose proof Hone as Hone'. unfold one_line in Hone'.
  simpl in Hone'. apply Forall_cons in Hone' as [Hc Hl]. simpl Vlan.lstrip.
  destruct (Vlan.isspace c) eqn:Hs.
  - intros He. constructor; [by apply isspace_in_block_class|by apply IH].
  - intros [He Hb]%andb_prop.
    destruct l as [|c2 [|c3 [|c4 u]]];
      try (revert He; rewrite !startswith_cons, startswith_nil_false;
           by repeat destruct (Ascii.eqb _ _)).
    revert He. rewrite !startswith_cons.
    destruct (Ascii.eqb_spec "e" c) as [<-|]; [|done].
    destruct (Ascii.eqb_spec "x" c2) as [<-|]; [|done].
    destruct (Ascii.eqb_spec "i" c3) as [<-|]; [|done].
    destruct (Ascii.eqb_spec "t" c4) as [<-|]; [|done].
    intros _. simpl in Hb. simpl. repeat (constructor; [done|]).
    apply blank_to_eol_class; [|done].
    unfold one_line. simpl in Hl. by repeat apply Forall_cons in Hl as [_ Hl].
Qed.

Lemma block_body_through body T :
  Forall (λ l, Forall block_char (Vlan.chars l)
               ∧ Vlan.lstrip l ≠ "" ∧ Vlan.exit_here l = false) body →
  Vlan.block_to_exit Vlan.newline (lines_text body +:+ T)
  = (λ b, lines_text body +:+ b) <$> Vlan.block_to_exit Vlan.newline T.
Proof.
  intros Hbody. induction Hbody as [|l body (Hcl & Hnb & Hex) _ IH].
  - rewrite append_nil_l. by destruct (Vlan.block_to_exit Vlan.newline T).
  - simpl lines_text. rewrite append_assoc, append_cons.
    assert (one_line l) as Hone
      by (eapply Forall_impl; [exact Hcl|]; by intros c [_ ?]).
    destruct l as [|c l]; [done|].
    rewrite append_cons.
    cbv beta iota delta [Vlan.block_to_exit]; fold Vlan.block_to_exit.
    rewrite <- append_cons at 1. rewrite exit_here_app, Hex by done.
    rewrite andb_false_r.
    simpl in Hcl. apply Forall_cons in Hcl as [[Hc1 Hc2] Hcl].
    rewrite Hc1, block_through_line, IH by done.
    destruct (Vlan.block_to_exit Vlan.newline T); simpl; [|done].
    by rewrite append_assoc, !append_cons.
Qed.

(** A line with a character outside the class stops the lazy group. *)
Lemma block_stops_inside c line R :
  c ≠ Vlan.newline → one_line line →
  Exists (λ d, Vlan.in_block_class d = false) (Vlan.chars line) →
  Vlan.block_to_exit c (line +:+ R) = None.
Proof.
  unfold one_line. revert c. induction line as [|d line IH]; intros c Hc Hone Hex.
  - by apply Exists_nil in Hex.
  - simpl in Hone, Hex. apply Forall_cons in Hone as [Hd Hone].
    rewrite append_cons, block_to_exit_inside by done.
    destruct (Vlan.in_block_class d) eqn:Hcl; [|done].
    apply Exists_cons in Hex as [?|Hex]; [congruence|].
    by rewrite IH.
Qed.

Lemma block_stops_at_line line R :
  one_line line →
  Exists (λ d, Vlan.in_block_class d = false) (Vlan.chars line) →
  R = "" ∨ (∃ R', R = String Vlan.newline R') →
  Vlan.block_to_exit Vlan.newline (line +:+ R) = None.
Proof.
  intros Hone Hex HR.
  assert (Vlan.exit_here (line +:+ R) = false) as Hexit.
  { assert (Vlan.exit_here line = false) as Hl.
    { destruct (Vlan.exit_here line) eqn:He; [|done].
      apply exit_line_class in He; [|done].
      apply Exists_exists in Hex as (d & Hd & Hcl).
      rewrite Forall_forall in He. specialize (He d Hd). congruence. }
    destruct HR as [->|[R' ->]]; [by rewrite append_nil_r|].
    rewrite exit_here_app; [done..|].
    intros Hblank. apply Exists_exists in Hex as (d & Hd & Hcl).
    clear Hl. unfold one_line in Hone. induction line as [|c line IH]; [by apply elem_of_nil in Hd|].
    simpl in Hone, Hblank, Hd. apply Forall_cons in Hone as [_ Hone].
    destruct (Vlan.isspace c) eqn:Hs; [|done].
    apply elem_of_cons in Hd as [->|Hd]; [|by apply IH].
    apply isspace_in_block_class in Hs. congruence. }
  destruct line as [|c line]; [by apply Exists_nil in Hex|].
  rewrite append_cons in Hexit |- *.
  cbv beta iota delta [Vlan.block_to_exit]; fold Vlan.block_to_exit.
  rewrite Hexit, andb_false_r.
  unfold one_line in Hone. simpl in Hone, Hex. apply Forall_cons in Hone as [Hc Hone].
  destruct (Vlan.in_block_class c) eqn:Hcl; [|done].
  apply Exists_cons in Hex as [?|Hex]; [congruence|].
  by rewrite block_stops_inside.
Qed.

(** X17: a line between the ["vlan database"] line and the exit line that
    holds a character outside the class of the pattern (letters, digits,
    whitespace and the hyphen), such as a dot or an underscore in a VLAN
    name, makes the pattern fail there: when no later line starts with
    ["vlan database"], [parse_vlans] returns the empty list, whatever
    VLANs the block declares. *)
Theorem parse_vlans_foreign_character pre x body bad post :
  Forall one_line pre →
  Forall (λ l, Vlan.startswith l "vlan database" = false) pre →
  Forall block_char (Vlan.chars x) →
  Forall (λ l, Forall block_char (Vlan.chars l)
               ∧ Vlan.lstrip l ≠ "" ∧ Vlan.exit_here l = false) body →
  one_line bad →
  Exists (λ c, Vlan.in_block_class c = false) (Vlan.chars bad) →
  Forall one_line post →
  Forall (λ l, Vlan.startswith l "vlan database" = false) (body ++ bad :: post) →
  Vlan.parse_vlans (pre ++ ("vlan database" +:+ x) :: body ++ bad :: post) = [].
Proof.
  intros Hone Hpre Hx Hbody Hbad1 Hbad2 Hpost Hrest. unfold Vlan.parse_vlans.
  assert (Forall one_line (body ++ bad :: post)) as Hone_rest.
  { apply Forall_app. split; [|by constructor].
    eapply Forall_impl; [exact Hbody|]. intros l (Hl & _).
    eapply Forall_impl; [exact Hl|]. by intros c [_ ?]. }
  assert (∀ prev, prev = None ∨ prev = Some Vlan.newline →
            Vlan.search_block prev
              (Vlan.join_lines (("vlan database" +:+ x) :: body ++ bad :: post))
            = None) as Hsearch.
  { intros prev Hprev.
    assert (Vlan.join_lines (("vlan database" +:+ x) :: body ++ bad :: post)
            = ("vlan database" +:+ x) +:+ String Vlan.newline
                (Vlan.join_lines (body ++ bad :: post))) as ->
      by by destruct body.
    rewrite search_pass_line.
    - by apply search_without_header.
    - unfold one_line. eapply (Forall_impl _ _ (Vlan.chars ("vlan database" +:+ x))).
      + assert (Forall block_char (Vlan.chars ("vlan database" +:+ x))) as H;
          [|exact H].
        change (Vlan.chars ("vlan database" +:+ x))
          with (Vlan.chars "vlan database" ++ Vlan.chars x).
        apply Forall_app. split; [|done].
        repeat (constructor; [by split|]). constructor.
      + by intros c [_ ?].
    - rewrite append_assoc. unfold Vlan.block_here.
      rewrite header_startswith, header_slice, andb_true_r.
      destruct (bool_decide _); [|done].
      rewrite block_through_line, join_lines_body, block_body_through by done.
      assert (Vlan.block_to_exit Vlan.newline (Vlan.join_lines (bad :: post))
              = None) as ->; [|done].
      destruct post as [|l post].
      + simpl Vlan.join_lines. rewrite <- (append_nil_r bad).
        apply block_stops_at_line; auto.
      + rewrite join_lines_cons. apply block_stops_at_line; eauto. }
  destruct pre as [|l pre].
  - simpl app. by rewrite Hsearch by by left.
  - rewrite search_skip_lines by done. by rewrite Hsearch by by right.
Qed.

Lemma parse_vlans_foreign_character_witness :
  Exists (λ c, Vlan.in_block_class c = false) (Vlan.chars "name 8 RIS_2")
  ∧ Vlan.parse_vlans
      (docstring_before ++ "vlan database" :: ["vlan add 2"; "vlan add 8"]
         ++ "name 8 RIS_2" :: ["exit"])
    = [].
Proof.
  assert (Exists (λ c, Vlan.in_block_class c = false) (Vlan.chars "name 8 RIS_2"))
    as Hbad by (apply (bool_decide_unpack _); vm_compute; exact I).
  split; [exact Hbad|].
  pose proof (parse_vlans_foreign_character docstring_before ""
                ["vlan add 2"; "vlan add 8"] "name 8 RIS_2" ["exit"]) as H.
  change ("vlan database" +:+ "") with "vlan database" in H.
  apply H; try exact Hbad; try constructor;
    try (apply (bool_decide_unpack _); vm_compute; exact I).
Defined.
